(** * LiveDiarization: the notebook's glue code, embedded and verified

    The notebook wires a streaming diarization pipeline (diart, pyannote)
    to a speech recogniser (whisper) and prints coloured captions.  Its own
    code is the class [WhisperTranscriber], the functions [concat] and
    [colorize_transcription], and the operator chain of the last cell.

    Times and durations (Python floats, in seconds) are rationals.  Python
    exceptions are an error value of the [result] type.  The external
    libraries are an interface ([Pyannote], [Whisper]); every theorem holds
    for any implementation of it, and a small reference implementation is
    given to run the code on concrete inputs. *)

From Stdlib Require Import ZArith NArith QArith Qround List String Ascii Bool Lia.
From Stdlib Require Import DecimalString DecimalN DecimalPos.
Import ListNotations.

Local Open Scope string_scope.
Local Open Scope list_scope.
Local Open Scope Z_scope.

(** ** Python values that can fail *)

Inductive PyExc : Type :=
| IndexError
| ValueError
| TypeError
| ArgumentOutOfRange.

Definition result (A : Type) : Type := (PyExc + A)%type.

Definition ok {A : Type} (a : A) : result A := inr a.
Definition raise {A : Type} (e : PyExc) : result A := inl e.

Definition bind {A B : Type} (r : result A) (k : A -> result B) : result B :=
  match r with
  | inl e => inl e
  | inr a => k a
  end.

Notation "x <- r ;; k" := (bind r (fun x => k))
  (at level 61, r at next level, right associativity).

(** [for x in xs: acc.append(f(x))], stopping at the first exception. *)
Fixpoint for_each {A B : Type} (f : A -> result B) (xs : list A)
  : result (list B) :=
  match xs with
  | [] => ok []
  | x :: xs' => y <- f x ;; ys <- for_each f xs' ;; ok (y :: ys)
  end.

Module Py.

(** [l[i]] on a list: a negative index counts from the end, an index out
    of range raises [IndexError]. *)
Definition getitem {A : Type} (l : list A) (i : Z) : result A :=
  let n := Z.of_nat (List.length l) in
  let j := if i <? 0 then i + n else i in
  if (0 <=? j) && (j <? n) then
    match nth_error l (Z.to_nat j) with
    | Some a => ok a
    | None => raise IndexError
    end
  else raise IndexError.

(** [k * l] on a list. *)
Fixpoint list_mul {A : Type} (k : nat) (l : list A) : list A :=
  match k with
  | O => []
  | S k' => l ++ list_mul k' l
  end.

(** [sep.join(ls)]. *)
Definition join (sep : string) (ls : list string) : string :=
  String.concat sep ls.

(** A [string] stands for a Python [str] whose characters have code points
    below 256, one character per code point. *)

(** The scan of [s.split(sep)] for a non-empty [sep]: [skip] counts the
    characters of a matched separator still to drop; the head of the
    result is the piece being built. *)
Fixpoint split_scan (sep : string) (skip : nat) (s : string) : list string :=
  match s with
  | EmptyString => [EmptyString]
  | String c s' =>
      match skip with
      | S k => split_scan sep k s'
      | O =>
          if String.prefix sep s
          then EmptyString :: split_scan sep (String.length sep - 1) s'
          else match split_scan sep O s' with
               | p :: ps => String c p :: ps
               | [] => [String c EmptyString]
               end
      end
  end.

(** [s.split(sep)]: an empty separator raises [ValueError]. *)
Definition split (s sep : string) : result (list string) :=
  match sep with
  | EmptyString => raise ValueError
  | _ => ok (split_scan sep O s)
  end.

(** The blanks [int] skips around a literal: tab, line feed, vertical tab,
    form feed, carriage return and space, which the parser skips itself,
    and next line (133) and no-break space (160), which are turned into
    spaces first.  The separators 28 to 31 are not among them. *)
Definition is_space (c : ascii) : bool :=
  let n := N_of_ascii c in
  ((9 <=? n) && (n <=? 13) || (n =? 32) || (n =? 133) || (n =? 160))%N.

Fixpoint lstrip (s : string) : string :=
  match s with
  | EmptyString => EmptyString
  | String c s' => if is_space c then lstrip s' else s
  end.

Fixpoint rstrip (s : string) : string :=
  match s with
  | EmptyString => EmptyString
  | String c s' =>
      match rstrip s' with
      | EmptyString => if is_space c then EmptyString else String c EmptyString
      | r => String c r
      end
  end.

Definition strip (s : string) : string := rstrip (lstrip s).

Definition digit_of (c : ascii) : option N :=
  let n := N_of_ascii c in
  if ((48 <=? n) && (n <=? 57))%N then Some (n - 48)%N else None.

(** The digits of an integer literal after its first digit: digits, with
    single underscores allowed between two digits. *)
Fixpoint int_digits (acc : N) (s : string) : option N :=
  match s with
  | EmptyString => Some acc
  | String c s' =>
      match digit_of c with
      | Some d => int_digits (10 * acc + d) s'
      | None =>
          if Ascii.eqb c "_" then
            match s' with
            | String c' s'' =>
                match digit_of c' with
                | Some d => int_digits (10 * acc + d) s''
                | None => None
                end
            | EmptyString => None
            end
          else None
      end
  end.

Definition int_unsigned (s : string) : option N :=
  match s with
  | String c s' =>
      match digit_of c with
      | Some d => int_digits d s'
      | None => None
      end
  | EmptyString => None
  end.

(** [int(s)] on a string, base 10: the blanks around the literal are
    dropped, a sign is optional, anything else raises [ValueError].  The
    only decimal digits with a code point below 256 are "0" to "9".  The
    interpreter also refuses a literal of more digits than its limit
    ([int_max_str_digits], 4300 unless changed); the limit is not part of
    this function, and a statement that reads an arbitrary string bounds
    its length by it. *)
Definition int (s : string) : result Z :=
  let body (neg : bool) (t : string) : result Z :=
    match int_unsigned t with
    | Some n => ok (if neg then - Z.of_N n else Z.of_N n)
    | None => raise ValueError
    end in
  match strip s with
  | String "-" t => body true t
  | String "+" t => body false t
  | t => body false t
  end.

(** [str(n)] for a natural number. *)
Definition str (n : N) : string := NilEmpty.string_of_uint (N.to_uint n).

(** The default of [sys.get_int_max_str_digits()]. *)
Definition int_max_str_digits : nat := 4300.

(** [int(np.argmax(xs))]: the first position of the greatest element;
    [np.argmax] of an empty sequence raises [ValueError]. *)
Fixpoint argmax_from (best : Q) (besti i : nat) (xs : list Q) : nat :=
  match xs with
  | [] => besti
  | x :: xs' =>
      if Qle_bool x best
      then argmax_from best besti (S i) xs'
      else argmax_from x i (S i) xs'
  end.

Definition argmax (xs : list Q) : result Z :=
  match xs with
  | [] => raise ValueError
  | x :: xs' => ok (Z.of_nat (argmax_from x O 1%nat xs'))
  end.

End Py.

(** ** Captions and their colouring *)

(** A caption is a pair [(speaker: int, text: str)]. *)
Definition Caption : Type := (Z * string)%type.

Definition palette : list string :=
  [ "bright_red"; "bright_blue"; "bright_green"; "orange3"; "deep_pink1";
    "yellow2"; "magenta"; "cyan"; "bright_magenta"; "dodger_blue2" ].

Definition colors : list string := Py.list_mul 2 palette.

Definition newline : string := String (ascii_of_nat 10) EmptyString.

(** The body of the loop of [colorize_transcription]. *)
Definition colorize_caption (c : Caption) : result string :=
  let '(speaker, text) := c in
  if speaker =? -1 then ok text
  else color <- Py.getitem colors speaker ;; ok ("[" ++ color ++ "]" ++ text)%string.

Definition colorize_transcription (transcription : list Caption)
  : result string :=
  lines <- for_each colorize_caption transcription ;;
  ok (Py.join newline lines).

(** ** Data shapes of the external libraries *)

(** [pyannote.core.Segment(start, end)]. *)
Record Segment : Type := { seg_start : Q; seg_end : Q }.

(** [pyannote.core.SlidingWindow(duration, step, start)]. *)
Record SlidingWindow : Type := { duration : Q; step : Q; start : Q }.

(** [pyannote.core.SlidingWindowFeature(data, sliding_window)]; [data] is
    an array whose first axis is time: a list of frames. *)
Record SlidingWindowFeature (Frame : Type) : Type :=
  { data : list Frame; sliding_window : SlidingWindow }.
Arguments Build_SlidingWindowFeature {Frame} _ _.
Arguments data {Frame} _.
Arguments sliding_window {Frame} _.

(** A word of a transcription segment: [word["start"]], [word["end"]]. *)
Record Word : Type := { word_text : string; word_start : Q; word_end : Q }.

(** A transcription segment: [segment["text"]], [segment["words"]]. *)
Record TSegment : Type := { seg_text : string; words : list Word }.

(** The dictionary returned by [whisper.transcribe]: [transcription["text"]],
    [transcription["segments"]]. *)
Record Transcription : Type := { text : string; segments : list TSegment }.

(** The methods of [pyannote.core.Annotation] the notebook calls. *)
Class Pyannote (Annotation : Type) : Type := {
  uri : Annotation -> option string;
  new_annotation : option string -> Annotation;
  update : Annotation -> Annotation -> Annotation;
  support : Annotation -> Q -> Annotation;
  crop : Annotation -> Segment -> Annotation;
  labels : Annotation -> list string;
  label_duration : Annotation -> string -> Q;
  timeline_duration : Annotation -> Q
}.

(** The functions of [whisper_timestamped] and numpy the notebook calls.
    [as_audio] is [data.astype("float32").reshape(-1)]; [load_model] is
    [whisper.load_model] on a model name that is a string. *)
Class Whisper (Frame Audio Model Device : Type) : Type := {
  as_audio : list Frame -> Audio;
  pad_or_trim : Audio -> Audio;
  load_model : string -> option Device -> result Model;
  whisper_transcribe : Model -> Audio -> string -> Transcription
}.

(** A waveform is a sliding-window feature; the stream carries pairs
    [(diarization, waveform)]. *)
Definition Waveform (Frame : Type) : Type := SlidingWindowFeature Frame.
Definition Chunk (Annotation Frame : Type) : Type :=
  (Annotation * Waveform Frame)%type.

(** ** The transcriber *)

(** An instance of [WhisperTranscriber]: [self.model], [self._buffer]. *)
Record WhisperTranscriber (Model : Type) : Type :=
  { model : Model; _buffer : string }.
Arguments Build_WhisperTranscriber {Model} _ _.
Arguments model {Model} _.
Arguments _buffer {Model} _.

Section Glue.

Context {Annotation Frame Audio Model Device : Type}.
Context {PA : Pyannote Annotation}.
Context {W : Whisper Frame Audio Model Device}.

Local Abbreviation Waveform := (Waveform Frame).
Local Abbreviation Chunk := (Chunk Annotation Frame).

(** The Python objects that flow through the operator chain and reach a
    call whose parameters are untyped. *)
Inductive PyVal : Type :=
| PyNone
| PyStr (s : string)
| PyDevice (d : Device)
| PyAnnotation (a : Annotation)
| PyWaveform (w : Waveform)
| PyCaptions (c : list Caption)
| PyTranscriber (t : WhisperTranscriber Model).

(** [whisper.load_model(name, device=device)]: the name is first passed to
    [os.path.isfile], which raises [TypeError] on anything that is not a
    path (the traceback recorded in the notebook). *)
Definition whisper_load_model (name device : PyVal) : result Model :=
  match name with
  | PyStr s =>
      match device with
      | PyNone => load_model s None
      | PyDevice d => load_model s (Some d)
      | _ => raise TypeError
      end
  | _ => raise TypeError
  end.

(** [WhisperTranscriber(model, device)]: the class called as a function
    runs [__init__]. *)
Definition __init__ (model device : PyVal)
  : result (WhisperTranscriber Model) :=
  m <- whisper_load_model model device ;;
  ok (Build_WhisperTranscriber m EmptyString).

Definition transcribe (self : WhisperTranscriber Model)
    (waveform : Waveform) : Transcription :=
  let audio := as_audio (data waveform) in
  let audio := pad_or_trim audio in
  whisper_transcribe (model self) audio (_buffer self).

(** The [if]/[elif]/[else] of the loop of [identify_speakers]: the
    caption of a segment with text [segment_text] whose cropped
    diarization is [dia]. *)
Definition assign_speaker (dia : Annotation) (segment_text : string)
  : result Caption :=
  let speakers := labels dia in
  let num_speakers := List.length speakers in
  if (num_speakers =? 0)%nat then
    ok (-1, segment_text)
  else if (num_speakers =? 1)%nat then
    label <- Py.getitem speakers 0 ;;
    parts <- Py.split label "speaker" ;;
    digits <- Py.getitem parts 1 ;;
    spk_id <- Py.int digits ;;
    ok (spk_id, segment_text)
  else
    max_speaker <- Py.argmax (map (label_duration dia) speakers) ;;
    ok (max_speaker, segment_text).

(** The body of the loop of [identify_speakers]. *)
Definition segment_caption (diarization : Annotation) (time_shift : Q)
    (segment : TSegment) : result Caption :=
  first <- Py.getitem (words segment) 0 ;;
  let start := (time_shift + word_start first)%Q in
  last <- Py.getitem (words segment) (-1) ;;
  let end_ := (time_shift + word_end last)%Q in
  let dia := crop diarization (Build_Segment start end_) in
  assign_speaker dia (seg_text segment).

Definition identify_speakers (transcription : Transcription)
    (diarization : Annotation) (time_shift : Q) : result (list Caption) :=
  for_each (segment_caption diarization time_shift)
           (segments transcription).

(** [self(diarization, waveform)]: the returned captions (or the
    exception raised while assigning speakers) and the instance after the
    call; the buffer is updated before speakers are assigned. *)
Definition __call__ (self : WhisperTranscriber Model)
    (diarization : Annotation) (waveform : Waveform)
  : result (list Caption) * WhisperTranscriber Model :=
  let transcription := transcribe self waveform in
  let self :=
    Build_WhisperTranscriber (model self)
      (_buffer self ++ text transcription)%string in
  let time_shift := start (sliding_window waveform) in
  (identify_speakers transcription diarization time_shift, self).

(** Successive calls of one instance on the elements of [inputs]: the
    transcriptions made, in order, and the instance after the last
    call. *)
Fixpoint session (self : WhisperTranscriber Model) (inputs : list Chunk)
  : list Transcription * WhisperTranscriber Model :=
  match inputs with
  | [] => ([], self)
  | (diarization, waveform) :: rest =>
      let transcription := transcribe self waveform in
      let '(_, self') := __call__ self diarization waveform in
      let '(transcriptions, final) := session self' rest in
      (transcription :: transcriptions, final)
  end.

(** The notebook binds [asr] to the class itself. *)
Definition asr (diarization : PyVal) (waveform : PyVal)
  : result (WhisperTranscriber Model) :=
  __init__ diarization waveform.

(** ** Merging a batch *)

Definition default_collar : Q := 5 # 100.

(** [concat(chunks, collar)]. *)
Definition concat (chunks : list Chunk) (collar : Q) : result Chunk :=
  first <- Py.getitem chunks 0 ;;
  let first_annotation := fst first in
  let first_waveform := snd first in
  let annotation := new_annotation (uri first_annotation) in
  let '(annotation, data_) :=
    fold_left
      (fun (acc : Annotation * list (list Frame)) (c : Chunk) =>
         let '(annotation, data_) := acc in
         let '(ann, wav) := c in
         (update annotation ann, data_ ++ [data wav]))
      chunks (annotation, []) in
  let annotation := support annotation collar in
  let window :=
    {| duration := duration (sliding_window first_waveform);
       step := step (sliding_window first_waveform);
       start := start (sliding_window first_waveform) |} in
  let data_ := List.concat data_ in
  ok (annotation, Build_SlidingWindowFeature data_ window).

(** ** The operator chain *)

Definition transcription_duration : Q := 2.
Definition config_duration : Q := 5.
Definition config_step : Q := 1 # 2.

(** [int(transcription_duration // config.step)]. *)
Definition batch_size : Z := Qfloor (transcription_duration / config_step).

(** [lambda ann_wav: ann_wav[0].get_timeline().duration() > 0]. *)
Definition has_speech (ann_wav : Chunk) : bool :=
  negb (Qle_bool (timeline_duration (fst ann_wav)) 0).

(** [ops.starmap(asr)] on one element of the stream. *)
Definition starmap_asr (ann_wav : Chunk) : result PyVal :=
  self <- asr (PyAnnotation (fst ann_wav)) (PyWaveform (snd ann_wav)) ;;
  ok (PyTranscriber self).

(** [ops.map(colorize_transcription)] on one element of the stream: a
    value that is not a list of pairs cannot be unpacked. *)
Definition map_colorize (v : PyVal) : result string :=
  match v with
  | PyCaptions c => colorize_transcription c
  | _ => raise TypeError
  end.

(** [ops.buffer_with_count(count)] over the elements [xs] of a stream
    that then completes: a buffer is emitted when it holds [count]
    elements, and what is left at completion is emitted when it is not
    empty. *)
Fixpoint buffer_scan {A : Type} (count : nat) (cur xs : list A)
  : list (list A) :=
  match xs with
  | [] => match cur with [] => [] | _ => [cur] end
  | x :: xs' =>
      let cur' := cur ++ [x] in
      if (List.length cur' =? count)%nat
      then cur' :: buffer_scan count [] xs'
      else buffer_scan count cur' xs'
  end.

Definition buffer_with_count {A : Type} (count : Z) (xs : list A)
  : result (list (list A)) :=
  if count <=? 0 then raise ArgumentOutOfRange
  else ok (buffer_scan (Z.to_nat count) [] xs).

(** What the chain does with one batch of windows, from [ops.map(diarizer)]
    to [ops.map(colorize_transcription)]: the text handed to [on_next],
    or nothing when the filter drops the batch. *)
Definition on_batch (diarizer : list Waveform -> list Chunk)
    (batch : list Waveform) : result (option string) :=
  ann_wav <- concat (diarizer batch) default_collar ;;
  if has_speech ann_wav then
    captions <- starmap_asr ann_wav ;;
    colored <- map_colorize captions ;;
    ok (Some colored)
  else ok None.

End Glue.

(** ** The subscription *)

Section Chain.

Context {Annotation Frame Audio Model Device : Type}.
Context {PA : Pyannote Annotation}.
Context {W : Whisper Frame Audio Model Device}.

(** [.subscribe(on_next=rich.print, on_error=...)] over the batches of the
    stream: the texts handed to [rich.print], in order, and the exception
    that ended the stream, if one was raised. *)
Fixpoint subscribe (diarizer : list (Waveform Frame)
                               -> list (Chunk Annotation Frame))
    (batches : list (list (Waveform Frame)))
  : list string * option PyExc :=
  match batches with
  | [] => ([], None)
  | batch :: rest =>
      match on_batch diarizer batch with
      | inl e => ([], Some e)
      | inr None => subscribe diarizer rest
      | inr (Some colored) =>
          let '(printed, err) := subscribe diarizer rest in
          (colored :: printed, err)
      end
  end.

(** The whole chain over the windows of a stream that then completes. *)
Definition run_chain (diarizer : list (Waveform Frame)
                                 -> list (Chunk Annotation Frame))
    (windows : list (Waveform Frame))
  : result (list string * option PyExc) :=
  batches <- buffer_with_count batch_size windows ;;
  ok (subscribe diarizer batches).

End Chain.

(** ** Silencing standard output *)

(** Where [sys.stdout] points. *)
Inductive Stream : Type :=
| Terminal
| Devnull.

(** The part of the interpreter [suppress_stdout] touches: [sys.stdout],
    the lines the terminal has shown, and the number of open handles on
    [os.devnull]. *)
Record Interpreter : Type :=
  { sys_stdout : Stream; terminal : list string; devnull_handles : nat }.

Definition set_stdout (stream : Stream) (s : Interpreter) : Interpreter :=
  {| sys_stdout := stream;
     terminal := terminal s;
     devnull_handles := devnull_handles s |}.

Definition open_devnull (s : Interpreter) : Interpreter :=
  {| sys_stdout := sys_stdout s;
     terminal := terminal s;
     devnull_handles := S (devnull_handles s) |}.

Definition close_devnull (s : Interpreter) : Interpreter :=
  {| sys_stdout := sys_stdout s;
     terminal := terminal s;
     devnull_handles := Nat.pred (devnull_handles s) |}.

(** [print(line)]: a write to whatever [sys.stdout] is. *)
Definition print (line : string) (s : Interpreter) : Interpreter :=
  match sys_stdout s with
  | Terminal =>
      {| sys_stdout := sys_stdout s;
         terminal := terminal s ++ [line];
         devnull_handles := devnull_handles s |}
  | Devnull => s
  end.

(** [with suppress_stdout(): body].  The body runs at the [yield]; what it
    returns or raises leaves the block after the [finally] clause and the
    closing of the file. *)
Definition suppress_stdout {A : Type}
    (body : Interpreter -> result A * Interpreter) (s : Interpreter)
  : result A * Interpreter :=
  let s := open_devnull s in
  let old_stdout := sys_stdout s in
  let s := set_stdout Devnull s in
  let '(r, s) := body s in
  let s := set_stdout old_stdout s in
  let s := close_devnull s in
  (r, s).

(** ** A reference implementation of the external interface

    Annotations are lists of labelled segments; the recogniser is scripted.
    It serves to run the notebook's code on concrete inputs. *)

Module Reference.

Record Annotation : Type :=
  { ann_uri : option string; tracks : list (Segment * string) }.

Definition seg_duration (s : Segment) : Q := (seg_end s - seg_start s)%Q.

Definition Qltb (x y : Q) : bool := negb (Qle_bool y x).

(** [Segment] instances shorter than a microsecond count as empty. *)
Definition SEGMENT_PRECISION : Q := 1 # 1000000.

Definition seg_nonempty (s : Segment) : bool :=
  Qltb SEGMENT_PRECISION (seg_duration s).

(** [s & focus]. *)
Definition seg_inter (s focus : Segment) : Segment :=
  {| seg_start :=
       if Qle_bool (seg_start s) (seg_start focus)
       then seg_start focus else seg_start s;
     seg_end :=
       if Qle_bool (seg_end s) (seg_end focus)
       then seg_end s else seg_end focus |}.

Definition ref_crop (a : Annotation) (focus : Segment) : Annotation :=
  {| ann_uri := ann_uri a;
     tracks :=
       filter (fun t => seg_nonempty (fst t))
              (map (fun t => (seg_inter (fst t) focus, snd t)) (tracks a)) |}.

Fixpoint insert_label (l : string) (ls : list string) : list string :=
  match ls with
  | [] => [l]
  | x :: ls' =>
      if String.eqb l x then ls
      else if String.ltb l x then l :: ls
      else x :: insert_label l ls'
  end.

(** [labels()]: the labels, sorted, each once. *)
Definition ref_labels (a : Annotation) : list string :=
  fold_right insert_label [] (map snd (tracks a)).

Definition seg_leb (s t : Segment) : bool :=
  if Qeq_bool (seg_start s) (seg_start t)
  then Qle_bool (seg_end s) (seg_end t)
  else Qle_bool (seg_start s) (seg_start t).

Fixpoint insert_seg (s : Segment) (ss : list Segment) : list Segment :=
  match ss with
  | [] => [s]
  | x :: ss' => if seg_leb s x then s :: ss else x :: insert_seg s ss'
  end.

(** [Timeline.support(collar)] over sorted segments: a segment joins the
    current one when the gap between them is empty or shorter than
    [collar]. *)
Fixpoint merge_sorted (collar : Q) (cur : Segment) (ss : list Segment)
  : list Segment :=
  match ss with
  | [] => [cur]
  | s :: ss' =>
      let gap := (seg_start s - seg_end cur)%Q in
      if Qle_bool gap 0 || Qltb gap collar
      then merge_sorted collar
             {| seg_start := seg_start cur;
                seg_end := if Qle_bool (seg_end s) (seg_end cur)
                           then seg_end cur else seg_end s |} ss'
      else cur :: merge_sorted collar s ss'
  end.

Definition timeline_support (collar : Q) (ss : list Segment) : list Segment :=
  match fold_right insert_seg [] ss with
  | [] => []
  | s :: ss' => merge_sorted collar s ss'
  end.

Definition timeline_total (ss : list Segment) : Q :=
  fold_right (fun s acc => (seg_duration s + acc)%Q) 0%Q
             (timeline_support 0 ss).

Definition label_segments (a : Annotation) (l : string) : list Segment :=
  map fst (filter (fun t => String.eqb (snd t) l) (tracks a)).

Definition ref_label_duration (a : Annotation) (l : string) : Q :=
  timeline_total (label_segments a l).

Definition ref_support (a : Annotation) (collar : Q) : Annotation :=
  {| ann_uri := ann_uri a;
     tracks :=
       flat_map
         (fun l => map (fun s => (s, l))
                       (timeline_support collar (label_segments a l)))
         (ref_labels a) |}.

#[export] Instance pyannote : Pyannote Annotation := {
  uri := ann_uri;
  new_annotation := fun u => {| ann_uri := u; tracks := [] |};
  update := fun a b =>
    {| ann_uri := ann_uri a; tracks := tracks a ++ tracks b |};
  support := ref_support;
  crop := ref_crop;
  labels := ref_labels;
  label_duration := ref_label_duration;
  timeline_duration := fun a => timeline_total (map fst (tracks a))
}.

(** Thirty seconds of audio at 16 kHz. *)
Definition N_SAMPLES : N := 480000.

Definition ref_pad_or_trim (audio : list Q) : list Q :=
  let n := N.to_nat N_SAMPLES in
  firstn n audio ++ repeat 0%Q (n - List.length audio).

(** A scripted recogniser: it hears one word per call, the number of
    characters of the prompt it was given, spoken from 0.5 s to 1.5 s. *)
Definition scripted (audio : list Q) (prompt : string) : Transcription :=
  let heard := (" " ++ Py.str (N.of_nat (String.length prompt)))%string in
  {| text := heard;
     segments :=
       [ {| seg_text := heard;
            words := [ {| word_text := heard;
                          word_start := 1 # 2;
                          word_end := 3 # 2 |} ] |} ] |}.

Definition model_names : list string :=
  [ "tiny"; "base"; "small"; "medium"; "large" ].

#[export] Instance whisper
  : Whisper Q (list Q) (list Q -> string -> Transcription) unit := {
  as_audio := fun frames => frames;
  pad_or_trim := ref_pad_or_trim;
  load_model := fun name _ =>
    if existsb (String.eqb name) model_names then ok scripted
    else raise ValueError;
  whisper_transcribe := fun m audio prompt => m audio prompt
}.

Definition mk_segment (a b : Q) : Segment := {| seg_start := a; seg_end := b |}.

Definition mk_waveform (frames : list Q) (t0 : Q) : SlidingWindowFeature Q :=
  {| data := frames;
     sliding_window := {| duration := 5; step := 1 # 2; start := t0 |} |}.

End Reference.

(** ** Vocabulary of the statements *)

(** The colouring as the specification words it: the palette entry at the
    speaker id modulo the palette size, and no markup for the sentinel. *)
Definition palette_size : Z := Z.of_nat (List.length palette).

Definition colorize_caption_modulo (c : Caption) : string :=
  let '(speaker, text) := c in
  if speaker =? -1 then text
  else ("[" ++ nth (Z.to_nat (speaker mod palette_size)) palette EmptyString ++ "]"
        ++ text)%string.

Definition colorize_modulo (transcription : list Caption) : string :=
  Py.join newline (map colorize_caption_modulo transcription).

(** The value of a decimal numeral read from its most significant digit,
    continuing from [acc]. *)
Fixpoint uint_value (acc : N) (u : Decimal.uint) : N :=
  match u with
  | Decimal.Nil => acc
  | Decimal.D0 u' => uint_value (10 * acc + 0) u'
  | Decimal.D1 u' => uint_value (10 * acc + 1) u'
  | Decimal.D2 u' => uint_value (10 * acc + 2) u'
  | Decimal.D3 u' => uint_value (10 * acc + 3) u'
  | Decimal.D4 u' => uint_value (10 * acc + 4) u'
  | Decimal.D5 u' => uint_value (10 * acc + 5) u'
  | Decimal.D6 u' => uint_value (10 * acc + 6) u'
  | Decimal.D7 u' => uint_value (10 * acc + 7) u'
  | Decimal.D8 u' => uint_value (10 * acc + 8) u'
  | Decimal.D9 u' => uint_value (10 * acc + 9) u'
  end%N.

(** The interval a segment is cropped to: from the start of its first word
    to the end of its last word, both shifted by [time_shift]; a segment
    without words has none. *)
Definition segment_interval (time_shift : Q) (segment : TSegment)
  : option Segment :=
  match words segment with
  | [] => None
  | first :: rest =>
      Some {| seg_start := (time_shift + word_start first)%Q;
              seg_end := (time_shift + word_end (List.last rest first))%Q |}
  end.

(** A speaker label as the diarization pipeline writes it. *)
Definition speaker_label (n : N) : string := ("speaker" ++ Py.str n)%string.

(** [k] is the first position of a greatest element of [xs]. *)
Definition first_max (xs : list Q) (k : nat) : Prop :=
  (k < List.length xs)%nat /\
  (forall j, (j < List.length xs)%nat -> (nth j xs 0 <= nth k xs 0)%Q) /\
  (forall j, (j < k)%nat -> (nth j xs 0 < nth k xs 0)%Q).

(** ** Inputs for running the code *)

Module Example.

Import Reference.

(** Speaker 1 talks from 0 s to 3 s, speaker 2 from 2 s to 4 s, speaker 0
    from 10 s to 11 s. *)
Definition meeting : Annotation :=
  {| ann_uri := Some "meeting";
     tracks := [ (mk_segment 0 3, "speaker1");
                 (mk_segment 2 4, "speaker2");
                 (mk_segment 10 11, "speaker0") ] |}.

(** Two words, from 0.5 s to 2.5 s after the start of the chunk. *)
Definition hello : TSegment :=
  {| seg_text := " hello there";
     words := [ {| word_text := " hello";
                   word_start := 1 # 2; word_end := 1 |};
                {| word_text := " there";
                   word_start := 1; word_end := 5 # 2 |} ] |}.

Definition heard : Transcription :=
  {| text := " hello there"; segments := [hello] |}.

(** A segment the recogniser returned without words. *)
Definition wordless : TSegment := {| seg_text := " ..."; words := [] |}.

(** Two chunks of two samples and one sample. *)
Definition two_chunks : list (Annotation * SlidingWindowFeature Q) :=
  [ (meeting, mk_waveform [1 # 10; 2 # 10]%Q 0);
    (meeting, mk_waveform [3 # 10]%Q 2) ].

(** Five windows, and a diarizer that hears the same meeting in each. *)
Definition five_windows : list (SlidingWindowFeature Q) :=
  map (fun t => mk_waveform [t] t) [0; 1 # 2; 1; 3 # 2; 2]%Q.

Definition same_meeting (batch : list (SlidingWindowFeature Q))
  : list (Annotation * SlidingWindowFeature Q) :=
  map (fun w => (meeting, w)) batch.

(** A transcriber as [WhisperTranscriber("small")] builds it. *)
Definition fresh : WhisperTranscriber (list Q -> string -> Transcription) :=
  {| model := scripted; _buffer := EmptyString |}.

End Example.

(** ** Vocabulary of further statements *)

(** A block that prints [lines] and then returns or raises [r]. *)
Definition printing {A : Type} (lines : list string) (r : result A)
    (s : Interpreter) : result A * Interpreter :=
  (r, fold_left (fun s line => print line s) lines s).

(** ["speaker" in label]. *)
Definition mentions_speaker (label : string) : bool :=
  match String.index 0 "speaker" label with
  | Some _ => true
  | None => false
  end.

(** [c in s] for a character. *)
Fixpoint has_char (c : ascii) (s : string) : bool :=
  match s with
  | EmptyString => false
  | String x s' => Ascii.eqb x c || has_char c s'
  end.

Definition nl : ascii := ascii_of_nat 10.

(** The labels ["speaker0"], ..., ["speaker<k-1>"], in this order. *)
Definition first_speakers (k : nat) : list string :=
  map (fun i => speaker_label (N.of_nat i)) (seq 0 k).

Module MoreExamples.

Import Reference.

(** Both speakers 0 and 1 talk during the first three seconds, speaker 1
    for longer. *)
Definition duet : Annotation :=
  {| ann_uri := Some "duet";
     tracks := [ (mk_segment 0 1, "speaker0");
                 (mk_segment 0 3, "speaker1") ] |}.

(** A diarization whose only label is not a speaker label. *)
Definition anonymous : Annotation :=
  {| ann_uri := None; tracks := [ (mk_segment 0 3, "A") ] |}.

(** A diarization whose only label carries a signed number. *)
Definition signed : Annotation :=
  {| ann_uri := None; tracks := [ (mk_segment 0 3, "speaker-3") ] |}.

(** A diarizer that hears nobody. *)
Definition nobody (batch : list (SlidingWindowFeature Q))
  : list (Annotation * SlidingWindowFeature Q) :=
  map (fun w => ({| ann_uri := None; tracks := [] |}, w)) batch.

(** What [concat] makes of [Example.two_chunks]. *)
Definition merged_annotation : Annotation :=
  support
    (update (update (new_annotation (Some "meeting")) Example.meeting)
            Example.meeting)
    default_collar.

Definition merged_waveform : SlidingWindowFeature Q :=
  mk_waveform [1 # 10; 2 # 10; 3 # 10]%Q 0.

(** Three segments: words from 2.2 s to 2.8 s, from 19 s to 20 s and
    from 0 s to 1.5 s after the start of the chunk. *)
Definition conversation : Transcription :=
  {| text := " yes hm no";
     segments :=
       [ {| seg_text := " yes";
            words := [ {| word_text := " y"; word_start := 22 # 10;
                          word_end := 25 # 10 |};
                       {| word_text := "es"; word_start := 25 # 10;
                          word_end := 28 # 10 |} ] |};
         {| seg_text := " hm";
            words := [ {| word_text := " hm"; word_start := 19;
                          word_end := 20 |} ] |};
         {| seg_text := " no";
            words := [ {| word_text := " no"; word_start := 0;
                          word_end := 3 # 2 |} ] |} ] |}.

(** A transcriber whose recogniser hears this conversation in any audio. *)
Definition listener : WhisperTranscriber (list Q -> string -> Transcription) :=
  {| model := fun _ _ => conversation; _buffer := EmptyString |}.

Definition interpreter : Interpreter :=
  {| sys_stdout := Terminal; terminal := ["listening..."];
     devnull_handles := 0 |}.

End MoreExamples.

(** ** Python primitives *)

Lemma bind_ok {A B : Type} (r : result A) (k : A -> result B) (b : B) :
  (x <- r ;; k x) = ok b -> exists a, r = ok a /\ k a = ok b.
Proof.
  destruct r as [e | a]; simpl; intros H.
  - discriminate H.
  - exists a. split; [reflexivity | exact H].
Qed.

Lemma bind_ret {A B : Type} (a : A) (k : A -> result B) :
  (x <- ok a ;; k x) = k a.
Proof. reflexivity. Qed.

Lemma append_empty_r (s : string) : (s ++ EmptyString)%string = s.
Proof. induction s as [| c s IH]; cbn; [| rewrite IH]; reflexivity. Qed.

Lemma append_assoc (s t u : string) :
  ((s ++ t) ++ u)%string = (s ++ t ++ u)%string.
Proof. induction s as [| c s IH]; cbn; [| rewrite IH]; reflexivity. Qed.

Lemma concat_empty_cons (x : string) (l : list string) :
  String.concat EmptyString (x :: l) = (x ++ String.concat EmptyString l)%string.
Proof.
  destruct l as [| y l]; cbn [String.concat].
  - rewrite append_empty_r. reflexivity.
  - reflexivity.
Qed.

Lemma prefix_append (s t : string) : String.prefix s (s ++ t) = true.
Proof.
  induction s as [| c s IH]; cbn.
  - destruct t; reflexivity.
  - destruct (ascii_dec c c) as [_ | Hc]; [exact IH | contradiction].
Qed.

Lemma for_each_ext {A B : Type} (f g : A -> result B) (xs : list A) :
  (forall x, In x xs -> f x = g x) -> for_each f xs = for_each g xs.
Proof.
  induction xs as [| x xs IH]; intros Hfg; simpl.
  - reflexivity.
  - rewrite (Hfg x (or_introl eq_refl)).
    rewrite IH by (intros y Hy; apply Hfg; right; exact Hy).
    reflexivity.
Qed.

Lemma for_each_total {A B : Type} (f : A -> result B) (g : A -> B)
    (xs : list A) :
  Forall (fun x => f x = ok (g x)) xs -> for_each f xs = ok (map g xs).
Proof.
  induction 1 as [| x xs Hx _ IH]; simpl.
  - reflexivity.
  - rewrite Hx, IH. reflexivity.
Qed.

Lemma for_each_Forall2 {A B : Type} (f : A -> result B) (xs : list A)
    (ys : list B) :
  for_each f xs = ok ys -> Forall2 (fun x y => f x = ok y) xs ys.
Proof.
  revert ys. induction xs as [| x xs IH]; simpl; intros ys H.
  - injection H as <-. constructor.
  - apply bind_ok in H as (y & Hy & H).
    apply bind_ok in H as (ys' & Hys & H).
    injection H as <-. constructor; [exact Hy | apply IH; exact Hys].
Qed.

Lemma for_each_ok_iff {A B : Type} (f : A -> result B) (xs : list A)
    (ys : list B) :
  for_each f xs = ok ys <-> Forall2 (fun x y => f x = ok y) xs ys.
Proof.
  split; [apply for_each_Forall2 |].
  induction 1 as [| x y xs ys Hxy _ IH]; cbn [for_each].
  - reflexivity.
  - rewrite Hxy, bind_ret, IH, bind_ret. reflexivity.
Qed.

Lemma for_each_nth {A B : Type} (f : A -> result B) (xs : list A)
    (ys : list B) (i : nat) (x : A) :
  for_each f xs = ok ys -> nth_error xs i = Some x ->
  exists y, f x = ok y /\ nth_error ys i = Some y.
Proof.
  intros H. apply for_each_Forall2 in H. revert i.
  induction H as [| x' y' xs ys Hxy _ IH]; intros [| i] Hi; simpl in *;
    try discriminate.
  - injection Hi as <-. exists y'. split; [exact Hxy | reflexivity].
  - apply IH. exact Hi.
Qed.

Lemma for_each_raises {A B : Type} (f : A -> result B) (xs : list A) :
  Exists (fun x => exists e, f x = raise e) xs ->
  exists e, for_each f xs = raise e.
Proof.
  induction 1 as [x xs (e & He) | x xs _ (e & IH)]; simpl.
  - rewrite He. exists e. reflexivity.
  - destruct (f x) as [e' | y]; simpl.
    + exists e'. reflexivity.
    + rewrite IH. exists e. reflexivity.
Qed.

Lemma getitem_nil {A : Type} (i : Z) : Py.getitem (@nil A) i = raise IndexError.
Proof.
  unfold Py.getitem. simpl.
  destruct (i <? 0) eqn:Hi.
  - rewrite Z.add_0_r.
    destruct (0 <=? i) eqn:H0; [| reflexivity].
    apply Z.ltb_lt in Hi. apply Z.leb_le in H0. lia.
  - destruct (0 <=? i); simpl; [| reflexivity].
    destruct (i <? 0); [discriminate | reflexivity].
Qed.

Lemma getitem_first {A : Type} (x : A) (l : list A) :
  Py.getitem (x :: l) 0 = ok x.
Proof.
  unfold Py.getitem.
  change (0 <? 0) with false. cbv iota.
  replace (0 <? Z.of_nat (List.length (x :: l))) with true.
  - reflexivity.
  - symmetry. apply Z.ltb_lt. simpl List.length. lia.
Qed.

Lemma last_cons_default {A : Type} (a : A) (l : list A) (d d' : A) :
  List.last (a :: l) d = List.last (a :: l) d'.
Proof.
  revert a. induction l as [| b l IH]; intros a.
  - reflexivity.
  - change (List.last (b :: l) d = List.last (b :: l) d'). apply IH.
Qed.

Lemma nth_error_last {A : Type} (x : A) (l : list A) :
  nth_error (x :: l) (List.length l) = Some (List.last l x).
Proof.
  revert x. induction l as [| y l IH]; intros x.
  - reflexivity.
  - change (nth_error (y :: l) (List.length l) = Some (List.last (y :: l) x)).
    rewrite IH. destruct l as [| a l]; [reflexivity |].
    change (List.last (y :: a :: l) x) with (List.last (a :: l) x).
    f_equal. apply last_cons_default.
Qed.

Lemma getitem_last {A : Type} (x : A) (l : list A) :
  Py.getitem (x :: l) (-1) = ok (List.last l x).
Proof.
  unfold Py.getitem.
  change (-1 <? 0) with true. cbv iota.
  set (n := Z.of_nat (List.length (x :: l))).
  assert (Hn : n = Z.of_nat (List.length l) + 1)
    by (unfold n; simpl List.length; lia).
  replace (0 <=? -1 + n) with true by (symmetry; apply Z.leb_le; lia).
  replace (-1 + n <? n) with true by (symmetry; apply Z.ltb_lt; lia).
  replace (Z.to_nat (-1 + n)) with (List.length l) by lia.
  simpl andb. cbv iota. rewrite nth_error_last. reflexivity.
Qed.

Lemma getitem_too_large {A : Type} (l : list A) (i : Z) :
  Z.of_nat (List.length l) <= i -> Py.getitem l i = raise IndexError.
Proof.
  intros Hi. unfold Py.getitem.
  replace (i <? 0) with false by (symmetry; apply Z.ltb_ge; lia).
  replace (i <? Z.of_nat (List.length l)) with false
    by (symmetry; apply Z.ltb_ge; lia).
  rewrite andb_false_r. reflexivity.
Qed.

(** ** Colouring *)

Lemma colors_cycle (s : Z) :
  0 <= s < 20 ->
  Py.getitem colors s = ok (nth (Z.to_nat (s mod palette_size)) palette EmptyString).
Proof.
  intros Hs.
  assert (exists n, (n < 20)%nat /\ s = Z.of_nat n) as (n & Hn & ->)
    by (exists (Z.to_nat s); lia).
  clear Hs.
  do 20 (destruct n as [| n]; [reflexivity |]).
  lia.
Qed.

Lemma colorize_caption_within (c : Caption) :
  fst c = -1 \/ 0 <= fst c < 20 ->
  colorize_caption c = ok (colorize_caption_modulo c).
Proof.
  destruct c as [speaker text]. simpl fst. intros Hs.
  unfold colorize_caption, colorize_caption_modulo.
  destruct (speaker =? -1) eqn:Hsent; [reflexivity |].
  apply Z.eqb_neq in Hsent.
  rewrite colors_cycle by lia. reflexivity.
Qed.

Lemma colorize_caption_beyond_table (speaker : Z) (text : string) :
  20 <= speaker -> colorize_caption (speaker, text) = raise IndexError.
Proof.
  intros Hs. unfold colorize_caption.
  replace (speaker =? -1) with false by (symmetry; apply Z.eqb_neq; lia).
  rewrite getitem_too_large; [reflexivity |].
  change (Z.of_nat (List.length colors)) with 20. exact Hs.
Qed.

(** C2, as amended.  The palette has 10 entries and the lookup table holds
    it twice.  For every caption list whose speaker ids are the sentinel -1
    or lie in 0..19, [colorize_transcription] returns the lines joined by a
    newline, where a caption of speaker [s >= 0] is its text prefixed by
    the bracketed palette entry at position [s mod 10], and a caption of
    the sentinel speaker is its text alone. *)
Theorem colorize_transcription_within_table (transcription : list Caption) :
  Forall (fun c => fst c = -1 \/ 0 <= fst c < 20) transcription ->
  palette_size = 10 /\
  List.length colors = 20%nat /\
  colorize_transcription transcription = ok (colorize_modulo transcription).
Proof.
  intros Hall. split; [reflexivity | split; [reflexivity |]].
  unfold colorize_transcription, colorize_modulo.
  rewrite (for_each_total colorize_caption colorize_caption_modulo).
  - reflexivity.
  - eapply Forall_impl; [| exact Hall].
    intros c Hc. apply colorize_caption_within. exact Hc.
Qed.

Lemma colorize_transcription_within_table_witness :
  colorize_transcription [(0, "hello"); (-1, "uh"); (13, "bye")]
  = ok (colorize_modulo [(0, "hello"); (-1, "uh"); (13, "bye")]).
Proof.
  apply (colorize_transcription_within_table
           [(0, "hello"); (-1, "uh"); (13, "bye")]).
  repeat constructor; simpl; lia.
Defined.

(** C2, as stated, fails: speaker id 20 is not negative, yet the lookup in
    the 20-entry table raises [IndexError] instead of cycling back to the
    first palette entry. *)
Lemma colorize_transcription_speaker_20_raises :
  0 <= fst (20, "hi") /\
  colorize_transcription [(20, "hi")] = raise IndexError /\
  colorize_transcription [(20, "hi")] <> ok (colorize_modulo [(20, "hi")]).
Proof.
  split; [simpl; lia | split; [reflexivity | discriminate]].
Qed.

(** ** Speaker labels: [split] and [int] on ["speaker" ++ str n] *)

Lemma split_scan_numeral (u : Decimal.uint) :
  Py.split_scan "speaker" 0 (NilEmpty.string_of_uint u)
  = [NilEmpty.string_of_uint u].
Proof.
  induction u as [| u IH | u IH | u IH | u IH | u IH | u IH | u IH | u IH
                  | u IH | u IH];
    [reflexivity | ..];
    cbn [NilEmpty.string_of_uint Py.split_scan];
    rewrite IH; reflexivity.
Qed.

Lemma split_scan_speaker (d : string) :
  Py.split_scan "speaker" 0 ("speaker" ++ d)
  = EmptyString :: Py.split_scan "speaker" 0 d.
Proof. destruct d; reflexivity. Qed.

Lemma split_speaker_label (n : N) :
  Py.split ("speaker" ++ Py.str n) "speaker" = ok [EmptyString; Py.str n].
Proof.
  unfold Py.split, Py.str.
  rewrite split_scan_speaker, split_scan_numeral. reflexivity.
Qed.

Lemma lstrip_numeral (u : Decimal.uint) :
  Py.lstrip (NilEmpty.string_of_uint u) = NilEmpty.string_of_uint u.
Proof. destruct u; reflexivity. Qed.

Lemma rstrip_numeral (u : Decimal.uint) :
  Py.rstrip (NilEmpty.string_of_uint u) = NilEmpty.string_of_uint u.
Proof.
  induction u as [| u IH | u IH | u IH | u IH | u IH | u IH | u IH | u IH
                  | u IH | u IH];
    [reflexivity | ..];
    cbn [NilEmpty.string_of_uint Py.rstrip];
    rewrite IH; destruct (NilEmpty.string_of_uint u); reflexivity.
Qed.

Lemma int_digits_numeral (u : Decimal.uint) (acc : N) :
  Py.int_digits acc (NilEmpty.string_of_uint u) = Some (uint_value acc u).
Proof.
  revert acc.
  induction u as [| u IH | u IH | u IH | u IH | u IH | u IH | u IH | u IH
                  | u IH | u IH];
    intros acc; [reflexivity | ..]; apply IH.
Qed.

Lemma uint_value_pos (u : Decimal.uint) (p : positive) :
  uint_value (Npos p) u = Npos (Pos.of_uint_acc u p).
Proof.
  revert p.
  induction u as [| u IH | u IH | u IH | u IH | u IH | u IH | u IH | u IH
                  | u IH | u IH];
    intros p; [reflexivity | ..];
    cbn [uint_value Pos.of_uint_acc];
    match goal with
    | |- uint_value ?a u = _ =>
        let q := fresh "q" in
        let Hq := fresh "Hq" in
        assert (exists q, a = Npos q) as (q & Hq)
          by (destruct a eqn:Ea; [lia | eexists; reflexivity]);
        rewrite Hq, IH; f_equal; f_equal; lia
    end.
Qed.

Lemma uint_value_zero (u : Decimal.uint) : uint_value 0 u = Pos.of_uint u.
Proof.
  induction u as [| u IH | u IH | u IH | u IH | u IH | u IH | u IH | u IH
                  | u IH | u IH];
    [reflexivity | exact IH | ..];
    cbn [uint_value Pos.of_uint];
    change (10 * 0 + 1)%N with 1%N; change (10 * 0 + 2)%N with 2%N;
    change (10 * 0 + 3)%N with 3%N; change (10 * 0 + 4)%N with 4%N;
    change (10 * 0 + 5)%N with 5%N; change (10 * 0 + 6)%N with 6%N;
    change (10 * 0 + 7)%N with 7%N; change (10 * 0 + 8)%N with 8%N;
    change (10 * 0 + 9)%N with 9%N;
    apply uint_value_pos.
Qed.

Lemma int_unsigned_numeral (u : Decimal.uint) :
  u <> Decimal.Nil ->
  Py.int_unsigned (NilEmpty.string_of_uint u) = Some (N.of_uint u).
Proof.
  intros Hu. unfold N.of_uint. rewrite <- uint_value_zero.
  destruct u; [contradiction | ..];
    cbn [uint_value]; rewrite <- int_digits_numeral; reflexivity.
Qed.

Lemma to_uint_nonnil (n : N) : N.to_uint n <> Decimal.Nil.
Proof.
  destruct n as [| p]; [discriminate |].
  apply DecimalPos.Unsigned.to_uint_nonnil.
Qed.

Lemma int_str (n : N) : Py.int (Py.str n) = ok (Z.of_N n).
Proof.
  unfold Py.int, Py.strip, Py.str.
  rewrite lstrip_numeral, rstrip_numeral.
  pose proof (int_unsigned_numeral (N.to_uint n) (to_uint_nonnil n)) as H.
  rewrite DecimalN.Unsigned.of_to in H.
  destruct (N.to_uint n); cbn [NilEmpty.string_of_uint] in *;
    rewrite H; reflexivity.
Qed.

(** ** The position of the greatest duration *)

Lemma argmax_from_first_max (xs pre : list Q) (best : Q) (besti : nat) :
  (besti < List.length pre)%nat ->
  nth besti pre 0%Q = best ->
  (forall j, (j < List.length pre)%nat -> (nth j pre 0 <= best)%Q) ->
  (forall j, (j < besti)%nat -> (nth j pre 0 < best)%Q) ->
  first_max (pre ++ xs) (Py.argmax_from best besti (List.length pre) xs).
Proof.
  revert pre best besti.
  induction xs as [| x xs IH]; intros pre best besti Hlt Hbest Hle Hfirst.
  - cbn [Py.argmax_from]. rewrite app_nil_r. unfold first_max.
    rewrite Hbest. repeat split; assumption.
  - cbn [Py.argmax_from].
    replace (pre ++ x :: xs) with ((pre ++ [x]) ++ xs)
      by (rewrite <- app_assoc; reflexivity).
    replace (S (List.length pre)) with (List.length (pre ++ [x]))
      by apply last_length.
    assert (Hold : forall j, (j < List.length pre)%nat ->
                             nth j (pre ++ [x]) 0%Q = nth j pre 0%Q)
      by (intros j Hj; apply app_nth1; exact Hj).
    assert (Hnew : nth (List.length pre) (pre ++ [x]) 0%Q = x)
      by apply nth_middle.
    assert (Hsplit : forall j, (j < List.length (pre ++ [x]))%nat ->
                               (j < List.length pre)%nat
                               \/ j = List.length pre)
      by (intros j; rewrite last_length; lia).
    destruct (Qle_bool x best) eqn:Hx.
    + apply Qle_bool_iff in Hx. apply IH.
      * rewrite last_length. lia.
      * rewrite Hold by exact Hlt. exact Hbest.
      * intros j Hj. destruct (Hsplit j Hj) as [Hj' | ->].
        -- rewrite Hold by exact Hj'. apply Hle. exact Hj'.
        -- rewrite Hnew. exact Hx.
      * intros j Hj. rewrite Hold by lia. apply Hfirst. exact Hj.
    + assert (Hgt : (best < x)%Q).
      { apply Qnot_le_lt. intros Hc. apply Qle_bool_iff in Hc.
        rewrite Hc in Hx. discriminate Hx. }
      apply IH.
      * rewrite last_length. lia.
      * exact Hnew.
      * intros j Hj. destruct (Hsplit j Hj) as [Hj' | ->].
        -- rewrite Hold by exact Hj'. apply Qlt_le_weak.
           eapply Qle_lt_trans; [apply Hle; exact Hj' | exact Hgt].
        -- rewrite Hnew. apply Qle_refl.
      * intros j Hj. rewrite Hold by exact Hj.
        eapply Qle_lt_trans; [apply Hle; exact Hj | exact Hgt].
Qed.

Lemma argmax_first_max (x : Q) (xs : list Q) :
  exists k, Py.argmax (x :: xs) = ok (Z.of_nat k) /\ first_max (x :: xs) k.
Proof.
  exists (Py.argmax_from x 0 1 xs). split; [reflexivity |].
  apply (argmax_from_first_max xs [x] x 0%nat).
  - cbn. lia.
  - reflexivity.
  - intros [| j] Hj; [apply Qle_refl | cbn in Hj; lia].
  - intros j Hj. lia.
Qed.

(** ** Assigning speakers *)

Section GlueFacts.

Context {Annotation Frame Audio Model Device : Type}.
Context {PA : Pyannote Annotation}.
Context {W : Whisper Frame Audio Model Device}.

Lemma segment_caption_interval (d : Annotation) (ts : Q) (seg : TSegment) :
  segment_caption d ts seg =
  match segment_interval ts seg with
  | Some iv => assign_speaker (crop d iv) (seg_text seg)
  | None => raise IndexError
  end.
Proof.
  unfold segment_caption, segment_interval.
  destruct (words seg) as [| first rest].
  - rewrite getitem_nil. reflexivity.
  - rewrite getitem_first, getitem_last. reflexivity.
Qed.

Lemma assign_speaker_none (dia : Annotation) (t : string) :
  labels dia = [] -> assign_speaker dia t = ok (-1, t).
Proof. intros H. unfold assign_speaker. rewrite H. reflexivity. Qed.

Lemma assign_speaker_one (dia : Annotation) (t : string) (n : N) :
  labels dia = [speaker_label n] -> assign_speaker dia t = ok (Z.of_N n, t).
Proof.
  intros H. unfold assign_speaker. rewrite H.
  cbn [List.length Nat.eqb]. rewrite getitem_first, bind_ret.
  unfold speaker_label. rewrite split_speaker_label, bind_ret.
  change (Py.getitem [EmptyString; Py.str n] 1) with (ok (Py.str n)).
  rewrite bind_ret, int_str, bind_ret. reflexivity.
Qed.

Lemma assign_speaker_many (dia : Annotation) (t : string)
    (l1 l2 : string) (ls : list string) :
  labels dia = l1 :: l2 :: ls ->
  assign_speaker dia t =
  ok (Z.of_nat
        (Py.argmax_from (label_duration dia l1) 0 1
           (map (label_duration dia) (l2 :: ls))), t).
Proof. intros H. unfold assign_speaker. rewrite H. reflexivity. Qed.

(** With two labels or more the caption carries a position in the list
    of labels: the first one whose label has the greatest duration. *)
Lemma assign_speaker_many_position (dia : Annotation) (t : string) :
  (2 <= List.length (labels dia))%nat ->
  exists k,
    assign_speaker dia t = ok (Z.of_nat k, t) /\
    first_max (map (label_duration dia) (labels dia)) k.
Proof.
  intros Hmany.
  destruct (labels dia) as [| l1 [| l2 ls]] eqn:E;
    try (cbn in Hmany; lia).
  destruct (argmax_first_max (label_duration dia l1)
              (map (label_duration dia) (l2 :: ls))) as (k & Hk & Hmax).
  exists k. split; [| exact Hmax].
  unfold assign_speaker. rewrite E.
  cbn [List.length Nat.eqb map] in Hk |- *.
  rewrite Hk, bind_ret. reflexivity.
Qed.

Lemma assign_speaker_text (dia : Annotation) (t : string) (cap : Caption) :
  assign_speaker dia t = ok cap -> snd cap = t.
Proof.
  unfold assign_speaker.
  destruct (List.length (labels dia) =? 0)%nat.
  - intros [= <-]. reflexivity.
  - destruct (List.length (labels dia) =? 1)%nat; intros H.
    + apply bind_ok in H as (label & _ & H).
      apply bind_ok in H as (parts & _ & H).
      apply bind_ok in H as (digits & _ & H).
      apply bind_ok in H as (spk_id & _ & H).
      injection H as <-. reflexivity.
    + apply bind_ok in H as (k & _ & H).
      injection H as <-. reflexivity.
Qed.

Lemma segment_caption_ok (d : Annotation) (ts : Q) (seg : TSegment)
    (cap : Caption) :
  segment_caption d ts seg = ok cap ->
  snd cap = seg_text seg /\ words seg <> [].
Proof.
  rewrite segment_caption_interval. unfold segment_interval.
  destruct (words seg) as [| first rest]; intros H.
  - discriminate H.
  - split; [eapply assign_speaker_text; exact H | discriminate].
Qed.

Lemma for_each_succeeds {A B : Type} (f : A -> result B) (xs : list A) :
  Forall (fun x => exists y, f x = ok y) xs ->
  exists ys, for_each f xs = ok ys.
Proof.
  induction 1 as [| x xs (y & Hy) _ (ys & IH)]; simpl.
  - exists []. reflexivity.
  - rewrite Hy, bind_ret, IH, bind_ret. exists (y :: ys). reflexivity.
Qed.

Lemma assign_speaker_succeeds (dia : Annotation) (t : string) :
  (forall l, labels dia = [l] -> exists n, l = speaker_label n) ->
  exists cap, assign_speaker dia t = ok cap.
Proof.
  intros Hone.
  destruct (labels dia) as [| l1 [| l2 ls]] eqn:E.
  - eexists. apply assign_speaker_none. exact E.
  - destruct (Hone l1 eq_refl) as (n & ->).
    eexists. apply assign_speaker_one. exact E.
  - eexists. eapply assign_speaker_many. exact E.
Qed.

(** C4.  When the diarization cropped to a segment's interval has no
    label, the loop body yields the sentinel -1 paired with the segment's
    text, and that pair is the caption at the segment's position in
    whatever [identify_speakers] returns. *)
Theorem identify_speakers_no_speaker
    (d : Annotation) (ts : Q) (seg : TSegment) (iv : Segment) :
  segment_interval ts seg = Some iv ->
  labels (crop d iv) = [] ->
  segment_caption d ts seg = ok (-1, seg_text seg) /\
  forall (tr : Transcription) (caps : list Caption) (i : nat),
    identify_speakers tr d ts = ok caps ->
    nth_error (segments tr) i = Some seg ->
    nth_error caps i = Some (-1, seg_text seg).
Proof.
  intros Hiv Hnone.
  assert (Hseg : segment_caption d ts seg = ok (-1, seg_text seg)).
  { rewrite segment_caption_interval, Hiv.
    apply assign_speaker_none. exact Hnone. }
  split; [exact Hseg |].
  intros tr caps i Hrun Hi.
  destruct (for_each_nth _ _ _ _ _ Hrun Hi) as (cap & Hcap & Hnth).
  rewrite Hseg in Hcap. injection Hcap as <-. exact Hnth.
Qed.


Lemma call_loop
    (self : WhisperTranscriber Model) (d : Annotation) (w : Waveform Frame) :
  fst (__call__ self d w) =
  for_each
    (fun seg =>
       match words seg with
       | [] => raise IndexError
       | first :: rest =>
           assign_speaker
             (crop d
                {| seg_start :=
                     (start (sliding_window w) + word_start first)%Q;
                   seg_end :=
                     (start (sliding_window w)
                      + word_end (List.last rest first))%Q |})
             (seg_text seg)
       end)
    (segments (transcribe self w)).
Proof.
  unfold __call__, identify_speakers. cbn [fst].
  apply for_each_ext. intros seg _.
  rewrite segment_caption_interval. unfold segment_interval.
  destruct (words seg); reflexivity.
Qed.

(** C8.  A call returns a list of captions exactly when that list has one
    caption per segment of the transcription, in order, each segment has
    a first and a last word, and the caption is what the speaker
    selection yields on the diarization cropped to the interval from the
    start of the first word to the end of the last word, both shifted by
    the start of the waveform's sliding window.  The diarization is used
    through these crops only: two diarizations with the same crops give
    the same outcome. *)
Theorem call_crops_each_segment
    (self : WhisperTranscriber Model) (d : Annotation) (w : Waveform Frame) :
  (forall caps,
     fst (__call__ self d w) = ok caps <->
     Forall2
       (fun seg cap =>
          exists first rest,
            words seg = first :: rest /\
            assign_speaker
              (crop d
                 {| seg_start :=
                      (start (sliding_window w) + word_start first)%Q;
                    seg_end :=
                      (start (sliding_window w)
                       + word_end (List.last rest first))%Q |})
              (seg_text seg) = ok cap)
       (segments (transcribe self w)) caps) /\
  (forall d',
     (forall seg first rest,
        In seg (segments (transcribe self w)) ->
        words seg = first :: rest ->
        crop d'
          {| seg_start := (start (sliding_window w) + word_start first)%Q;
             seg_end :=
               (start (sliding_window w)
                + word_end (List.last rest first))%Q |}
        = crop d
            {| seg_start :=
                 (start (sliding_window w) + word_start first)%Q;
               seg_end :=
                 (start (sliding_window w)
                  + word_end (List.last rest first))%Q |}) ->
     fst (__call__ self d' w) = fst (__call__ self d w)).
Proof.
  split.
  - intros caps. rewrite call_loop, for_each_ok_iff. split.
    + apply Forall2_impl. intros seg cap Hcap.
      destruct (words seg) as [| first rest]; [discriminate Hcap |].
      exists first, rest. split; [reflexivity | exact Hcap].
    + apply Forall2_impl. intros seg cap (first & rest & Hw & Hcap).
      rewrite Hw. exact Hcap.
  - intros d' Hcrops. rewrite !call_loop. apply for_each_ext.
    intros seg Hin. destruct (words seg) as [| first rest] eqn:Hw.
    + reflexivity.
    + rewrite (Hcrops seg first rest Hin Hw). reflexivity.
Qed.

(** C10, as amended.  Whenever [identify_speakers] returns, it returns one
    caption per segment, in the order of the segments, each with the
    segment's text, and every segment has at least one word; a segment
    without words makes it raise.  It does return such a list when every
    segment has a word and every lone label of a cropped diarization is
    "speaker" followed by the decimal numeral of a number, of no more
    digits than [int] reads. *)
Theorem identify_speakers_one_caption_per_segment
    (tr : Transcription) (d : Annotation) (ts : Q) :
  (forall caps, identify_speakers tr d ts = ok caps ->
     List.length caps = List.length (segments tr) /\
     map snd caps = map seg_text (segments tr) /\
     Forall (fun seg => words seg <> []) (segments tr)) /\
  (Exists (fun seg => words seg = []) (segments tr) ->
     exists e, identify_speakers tr d ts = raise e) /\
  (Forall (fun seg => words seg <> []) (segments tr) ->
   (forall seg iv l,
      In seg (segments tr) -> segment_interval ts seg = Some iv ->
      labels (crop d iv) = [l] ->
      exists n, l = speaker_label n /\
                (String.length (Py.str n) <= Py.int_max_str_digits)%nat) ->
   exists caps,
     identify_speakers tr d ts = ok caps /\
     List.length caps = List.length (segments tr) /\
     map snd caps = map seg_text (segments tr)).
Proof.
  assert (Hshape : forall caps, identify_speakers tr d ts = ok caps ->
            List.length caps = List.length (segments tr) /\
            map snd caps = map seg_text (segments tr) /\
            Forall (fun seg => words seg <> []) (segments tr)).
  { unfold identify_speakers. intros caps Hrun.
    apply for_each_Forall2 in Hrun.
    induction Hrun as [| seg cap segs caps Hcap _ (IHlen & IHtxt & IHw)].
    - repeat split; constructor.
    - apply segment_caption_ok in Hcap as (Htxt & Hw).
      cbn [List.length map]. rewrite IHlen, IHtxt, Htxt.
      repeat split. constructor; assumption. }
  split; [exact Hshape | split].
  - unfold identify_speakers. intros Hex. apply for_each_raises.
    eapply Exists_impl; [| exact Hex].
    intros seg Hw. exists IndexError.
    rewrite segment_caption_interval. unfold segment_interval.
    rewrite Hw. reflexivity.
  - intros Hwords Hlabels.
    assert (Hrun : exists caps, identify_speakers tr d ts = ok caps).
    { unfold identify_speakers. apply for_each_succeeds.
      apply Forall_forall. intros seg Hin.
      rewrite Forall_forall in Hwords. specialize (Hwords seg Hin).
      rewrite segment_caption_interval.
      destruct (segment_interval ts seg) as [iv |] eqn:Hiv.
      - apply assign_speaker_succeeds.
        intros l Hl. destruct (Hlabels seg iv l Hin Hiv Hl) as (n & Hn & _).
        exists n. exact Hn.
      - unfold segment_interval in Hiv.
        destruct (words seg); [contradiction | discriminate]. }
    destruct Hrun as (caps & Hcaps). exists caps.
    destruct (Hshape caps Hcaps) as (Hlen & Htxt & _).
    repeat split; assumption.
Qed.

(** ** Merging a batch *)

Lemma concat_fold (chunks : list (Chunk Annotation Frame)) (a0 : Annotation)
    (ds0 : list (list Frame)) :
  fold_left
    (fun (acc : Annotation * list (list Frame)) (c : Chunk Annotation Frame) =>
       let '(annotation, data_) := acc in
       let '(ann, wav) := c in
       (update annotation ann, data_ ++ [data wav]))
    chunks (a0, ds0)
  = (fold_left (fun a c => update a (fst c)) chunks a0,
     ds0 ++ map (fun c => data (snd c)) chunks).
Proof.
  revert a0 ds0. induction chunks as [| [ann wav] chunks IH]; intros a0 ds0.
  - cbn [fold_left map]. rewrite app_nil_r. reflexivity.
  - cbn [fold_left map fst snd]. rewrite IH, <- app_assoc. reflexivity.
Qed.

Lemma concat_cons (c : Chunk Annotation Frame)
    (cs : list (Chunk Annotation Frame)) (collar : Q) :
  concat (c :: cs) collar =
  ok (support
        (fold_left (fun a c => update a (fst c)) (c :: cs)
           (new_annotation (uri (fst c))))
        collar,
      {| data := List.concat (map (fun c => data (snd c)) (c :: cs));
         sliding_window :=
           {| duration := duration (sliding_window (snd c));
              step := step (sliding_window (snd c));
              start := start (sliding_window (snd c)) |} |}).
Proof.
  unfold concat. rewrite getitem_first, bind_ret, concat_fold.
  reflexivity.
Qed.

(** C6.  For a non-empty list of chunks [concat] returns a waveform whose
    samples are the samples of the input waveforms concatenated in input
    order, so that its sample count is the sum of theirs. *)
Theorem concat_samples (chunks : list (Chunk Annotation Frame)) (collar : Q) :
  chunks <> [] ->
  exists annotation waveform,
    concat chunks collar = ok (annotation, waveform) /\
    data waveform = List.concat (map (fun c => data (snd c)) chunks) /\
    List.length (data waveform)
    = list_sum (map (fun c => List.length (data (snd c))) chunks).
Proof.
  destruct chunks as [| c cs]; [contradiction |]. intros _.
  rewrite concat_cons. eexists. eexists.
  split; [reflexivity |]. cbn [data]. split; [reflexivity |].
  rewrite length_concat, map_map. reflexivity.
Qed.

Lemma buffer_scan_bounds {A : Type} (count : nat) (xs cur : list A) :
  (List.length cur < count)%nat ->
  Forall (fun b => b <> [] /\ (List.length b <= count)%nat)
         (buffer_scan count cur xs).
Proof.
  revert cur. induction xs as [| x xs IH]; intros cur Hcur.
  - destruct cur as [| c cur]; cbn [buffer_scan]; constructor.
    + split; [discriminate | lia].
    + constructor.
  - cbn [buffer_scan].
    assert (Hlen : List.length (cur ++ [x]) = S (List.length cur))
      by apply last_length.
    destruct (Nat.eqb_spec (List.length (cur ++ [x])) count) as [E | E].
    + constructor.
      * split; [destruct cur; discriminate | lia].
      * apply IH. cbn [List.length]. lia.
    + apply IH. lia.
Qed.

Lemma batch_size_value : batch_size = 4.
Proof. reflexivity. Qed.

(** C9.  [concat] raises [IndexError] on the empty list and returns a
    pair on every non-empty one.  The chain calls it on non-empty lists
    only: the batch size is 4, every batch the buffering operator emits
    has between one and four windows, and the diarizer returns one pair
    per window. *)
Theorem concat_defined_on_nonempty
    (diarizer : list (Waveform Frame) -> list (Chunk Annotation Frame))
    (windows : list (Waveform Frame)) :
  (forall batch, List.length (diarizer batch) = List.length batch) ->
  (forall collar,
     concat (@nil (Chunk Annotation Frame)) collar = raise IndexError) /\
  (forall (c : Chunk Annotation Frame) cs collar,
     exists r, concat (c :: cs) collar = ok r) /\
  0 < batch_size /\
  exists batches,
    buffer_with_count batch_size windows = ok batches /\
    Forall (fun b => b <> [] /\ Z.of_nat (List.length b) <= batch_size)
           batches /\
    Forall (fun b => exists r, concat (diarizer b) default_collar = ok r)
           batches.
Proof.
  intros Hdiarizer.
  split; [| split; [| split]].
  - intros collar. unfold concat. rewrite getitem_nil. reflexivity.
  - intros c cs collar. rewrite concat_cons. eexists. reflexivity.
  - rewrite batch_size_value. lia.
  - rewrite batch_size_value. unfold buffer_with_count.
    change (4 <=? 0) with false. cbv iota.
    eexists. split; [reflexivity |].
    pose proof (buffer_scan_bounds (Z.to_nat 4) windows [])
      as Hb.
    specialize (Hb ltac:(cbn; lia)).
    split.
    + eapply Forall_impl; [| exact Hb].
      intros b (Hne & Hle). split; [exact Hne | lia].
    + eapply Forall_impl; [| exact Hb].
      intros b (Hne & _).
      destruct (diarizer b) as [| c cs] eqn:E.
      * exfalso. apply Hne.
        specialize (Hdiarizer b). rewrite E in Hdiarizer.
        destruct b; [reflexivity | discriminate].
      * rewrite concat_cons. eexists. reflexivity.
Qed.

(** ** The prompt buffer *)

Lemma call_buffer (self : WhisperTranscriber Model) (d : Annotation)
    (w : Waveform Frame) :
  snd (__call__ self d w)
  = {| model := model self;
       _buffer := (_buffer self ++ text (transcribe self w))%string |}.
Proof. reflexivity. Qed.

Lemma session_cons (self : WhisperTranscriber Model) (d : Annotation)
    (w : Waveform Frame) (rest : list (Chunk Annotation Frame)) :
  session self ((d, w) :: rest)
  = (transcribe self w :: fst (session (snd (__call__ self d w)) rest),
     snd (session (snd (__call__ self d w)) rest)).
Proof.
  cbn [session]. rewrite call_buffer.
  unfold __call__.
  destruct (session _ rest) as [trs final]. reflexivity.
Qed.

Lemma session_buffer (inputs : list (Chunk Annotation Frame))
    (self : WhisperTranscriber Model) :
  model (snd (session self inputs)) = model self /\
  _buffer (snd (session self inputs))
  = (_buffer self
     ++ String.concat EmptyString (map text (fst (session self inputs))))%string.
Proof.
  revert self. induction inputs as [| [d w] rest IH]; intros self.
  - cbn. rewrite append_empty_r. split; reflexivity.
  - rewrite session_cons. cbn [fst snd map].
    destruct (IH (snd (__call__ self d w))) as (IHm & IHb).
    rewrite IHm, IHb, call_buffer. cbn [model _buffer].
    rewrite concat_empty_cons, append_assoc. split; reflexivity.
Qed.

Lemma session_prompt (inputs : list (Chunk Annotation Frame))
    (self : WhisperTranscriber Model) (k : nat) (d : Annotation)
    (w : Waveform Frame) :
  nth_error inputs k = Some (d, w) ->
  nth_error (fst (session self inputs)) k
  = Some (whisper_transcribe (model self)
            (pad_or_trim (as_audio (data w)))
            (_buffer self
             ++ String.concat EmptyString
                  (map text (firstn k (fst (session self inputs)))))%string).
Proof.
  revert self k.
  induction inputs as [| [d' w'] rest IH]; intros self k Hk.
  - destruct k; discriminate Hk.
  - rewrite session_cons. cbn [fst]. destruct k as [| k].
    + injection Hk as -> ->. cbn [nth_error firstn map String.concat].
      rewrite append_empty_r. reflexivity.
    + cbn [nth_error] in Hk |- *.
      rewrite (IH _ k Hk), call_buffer. cbn [model _buffer].
      rewrite firstn_cons. cbn [map].
      rewrite concat_empty_cons, append_assoc. reflexivity.
Qed.

(** C7.  A new instance starts with an empty buffer.  A call leaves the
    model alone and appends the text of its transcription to the buffer,
    which therefore keeps its previous content as a prefix.  Over
    successive calls the buffer is the initial buffer followed by the
    texts of all transcriptions made, and the transcription of call [k]
    is made with, as prompt, the initial buffer followed by the texts of
    the transcriptions of calls [0] to [k - 1]. *)
Theorem prompt_buffer_accumulates
    (self : WhisperTranscriber Model) (inputs : list (Chunk Annotation Frame))
    (k : nat) (d : Annotation) (w : Waveform Frame) :
  nth_error inputs k = Some (d, w) ->
  (forall (name device : @PyVal Annotation Frame Model Device) fresh,
     __init__ name device = ok fresh -> _buffer fresh = EmptyString) /\
  (forall d' w',
     model (snd (__call__ self d' w')) = model self /\
     _buffer (snd (__call__ self d' w'))
     = (_buffer self ++ text (transcribe self w'))%string /\
     String.prefix (_buffer self) (_buffer (snd (__call__ self d' w')))
     = true) /\
  _buffer (snd (session self inputs))
  = (_buffer self
     ++ String.concat EmptyString (map text (fst (session self inputs))))%string /\
  nth_error (fst (session self inputs)) k
  = Some (whisper_transcribe (model self)
            (pad_or_trim (as_audio (data w)))
            (_buffer self
             ++ String.concat EmptyString
                  (map text (firstn k (fst (session self inputs)))))%string).
Proof.
  intros Hk. split; [| split; [| split]].
  - intros name device fresh Hinit. unfold __init__ in Hinit.
    apply bind_ok in Hinit as (m & _ & Hinit).
    injection Hinit as <-. reflexivity.
  - intros d' w'. rewrite call_buffer. cbn [model _buffer].
    split; [reflexivity | split; [reflexivity |]].
    apply prefix_append.
  - apply session_buffer.
  - exact (session_prompt inputs self k d w Hk).
Qed.

(** ** The transcription stage of the chain *)

(** C3, on the code: [asr] is the class, so the stage calls the
    constructor with the diarization as model name and the waveform as
    device; loading the model raises [TypeError], no caption list is
    produced, and the chain never hands a text to [on_next]. *)
Theorem starmap_asr_raises (ann_wav : Chunk Annotation Frame) :
  starmap_asr ann_wav = raise TypeError /\
  (forall caps, starmap_asr ann_wav <> ok (PyCaptions caps)) /\
  (forall diarizer batch colored,
     on_batch diarizer batch <> ok (Some colored)).
Proof.
  assert (Hraise : forall c : Chunk Annotation Frame,
             starmap_asr c = raise TypeError)
    by reflexivity.
  split; [apply Hraise | split].
  - intros caps. rewrite Hraise. discriminate.
  - intros diarizer batch colored. unfold on_batch.
    destruct (concat (diarizer batch) default_collar) as [e | c];
      [discriminate |].
    rewrite bind_ret.
    destruct (has_speech c); [| discriminate].
    rewrite Hraise. discriminate.
Qed.

End GlueFacts.

(** ** The code on concrete inputs *)

Import Reference.

Lemma identify_speakers_no_speaker_witness :
  labels (crop Example.meeting (mk_segment (20 + (1 # 2)) (20 + (5 # 2)))) = []
  /\ segment_caption Example.meeting 20 Example.hello
     = ok (-1, " hello there")
  /\ identify_speakers Example.heard Example.meeting 20
     = ok [(-1, " hello there")].
Proof.
  split; [reflexivity | split].
  - exact (proj1 (identify_speakers_no_speaker
                    Example.meeting 20 Example.hello
                    (mk_segment (20 + (1 # 2)) (20 + (5 # 2)))
                    eq_refl eq_refl)).
  - reflexivity.
Defined.


Lemma call_crops_each_segment_witness :
  fst (__call__ MoreExamples.listener Example.meeting
         (mk_waveform [1 # 10]%Q 1))
  = ok [(2, " yes"); (-1, " hm"); (0, " no")].
Proof.
  apply (proj1 (call_crops_each_segment (PA := pyannote) (W := whisper)
                  MoreExamples.listener Example.meeting
                  (mk_waveform [1 # 10]%Q 1))).
  repeat (constructor; [eexists; eexists; split; reflexivity |]).
  constructor.
Defined.

Lemma identify_speakers_one_caption_per_segment_witness :
  exists caps,
    identify_speakers MoreExamples.conversation Example.meeting 1 = ok caps /\
    List.length caps = 3%nat /\
    map snd caps = [" yes"; " hm"; " no"].
Proof.
  apply (proj2 (proj2 (identify_speakers_one_caption_per_segment
                         (PA := pyannote)
                         MoreExamples.conversation Example.meeting 1))).
  - repeat constructor; discriminate.
  - intros seg iv l [<- | [<- | [<- | []]]] Hiv Hl;
      injection Hiv as <-; vm_compute in Hl; try discriminate Hl.
    injection Hl as <-. exists 2%N. split; [reflexivity |].
    vm_compute. lia.
Defined.

(** C10, as stated, fails: every segment of the transcription has a word,
    yet with a diarization whose only label is "A" the function raises
    [IndexError] and returns no caption. *)
Lemma identify_speakers_words_do_not_suffice :
  Forall (fun seg => words seg <> []) (segments Example.heard) /\
  identify_speakers Example.heard MoreExamples.anonymous 0
  = raise IndexError /\
  ~ (exists caps,
       identify_speakers Example.heard MoreExamples.anonymous 0 = ok caps).
Proof.
  split; [repeat constructor; discriminate | split].
  - reflexivity.
  - intros (caps & Hcaps). discriminate Hcaps.
Qed.

Lemma concat_samples_witness :
  exists annotation waveform,
    concat Example.two_chunks default_collar = ok (annotation, waveform) /\
    data waveform = [1 # 10; 2 # 10; 3 # 10]%Q /\
    List.length (data waveform) = (2 + 1)%nat.
Proof.
  apply (concat_samples Example.two_chunks default_collar).
  discriminate.
Defined.

Lemma concat_defined_on_nonempty_witness :
  exists batches,
    buffer_with_count batch_size Example.five_windows = ok batches /\
    Forall (fun b => b <> [] /\ Z.of_nat (List.length b) <= batch_size)
           batches /\
    Forall (fun b => exists r,
                concat (Example.same_meeting b) default_collar = ok r)
           batches.
Proof.
  apply (concat_defined_on_nonempty Example.same_meeting Example.five_windows).
  intros batch. apply length_map.
Defined.

Lemma prompt_buffer_accumulates_witness :
  _buffer (snd (session Example.fresh Example.two_chunks)) = " 0 2" /\
  nth_error (fst (session Example.fresh Example.two_chunks)) 1
  = Some (scripted (ref_pad_or_trim [3 # 10]%Q) " 0").
Proof.
  destruct (prompt_buffer_accumulates
              Example.fresh Example.two_chunks 1 Example.meeting
              (mk_waveform [3 # 10]%Q 2) eq_refl)
    as (_ & _ & Hbuffer & Hprompt).
  split; [exact Hbuffer | exact Hprompt].
Defined.

(** C1, on the code.  Between 0.5 s and 2.5 s of the meeting two speakers
    are active, "speaker1" for 2 s and "speaker2" for 0.5 s.  The speaker
    with the greatest duration is speaker 1; the caption carries 0, the
    position of "speaker1" in the list of labels. *)
Theorem identify_speakers_many_returns_position :
  let dia :=
    crop Example.meeting (mk_segment (0 + (1 # 2)) (0 + (5 # 2))) in
  segment_interval 0 Example.hello
  = Some (mk_segment (0 + (1 # 2)) (0 + (5 # 2))) /\
  labels dia = [speaker_label 1; speaker_label 2] /\
  (label_duration dia (speaker_label 1) == 2)%Q /\
  (label_duration dia (speaker_label 2) == 1 # 2)%Q /\
  identify_speakers Example.heard Example.meeting 0
  = ok [(0, " hello there")].
Proof. cbv zeta. repeat split. Qed.

(** ** Colouring, on every speaker id *)

Lemma getitem_too_small {A : Type} (l : list A) (i : Z) :
  i < - Z.of_nat (List.length l) -> Py.getitem l i = raise IndexError.
Proof.
  intros Hi. unfold Py.getitem.
  replace (i <? 0) with true by (symmetry; apply Z.ltb_lt; lia).
  replace (0 <=? i + Z.of_nat (List.length l)) with false
    by (symmetry; apply Z.leb_gt; lia).
  reflexivity.
Qed.

Lemma colors_cycle_negative (s : Z) :
  -20 <= s < 0 ->
  Py.getitem colors s
  = ok (nth (Z.to_nat (s mod palette_size)) palette EmptyString).
Proof.
  intros Hs.
  assert (exists n, (n < 20)%nat /\ s = Z.of_nat n - 20) as (n & Hn & ->)
    by (exists (Z.to_nat (s + 20)); lia).
  clear Hs.
  do 20 (destruct n as [| n]; [reflexivity |]).
  lia.
Qed.

Lemma colorize_caption_in_table (c : Caption) :
  -20 <= fst c < 20 -> colorize_caption c = ok (colorize_caption_modulo c).
Proof.
  destruct c as [speaker text]. cbn [fst]. intros Hs.
  destruct (Z_lt_le_dec speaker 0) as [Hneg | Hpos].
  - unfold colorize_caption, colorize_caption_modulo.
    destruct (speaker =? -1); [reflexivity |].
    rewrite colors_cycle_negative by lia. reflexivity.
  - apply colorize_caption_within. cbn [fst]. right. lia.
Qed.

Lemma colorize_caption_off_table (c : Caption) :
  fst c < -20 \/ 20 <= fst c -> colorize_caption c = raise IndexError.
Proof.
  destruct c as [speaker text]. cbn [fst]. intros [Hlow | Hhigh].
  - unfold colorize_caption.
    replace (speaker =? -1) with false by (symmetry; apply Z.eqb_neq; lia).
    rewrite getitem_too_small; [reflexivity |].
    change (Z.of_nat (List.length colors)) with 20. lia.
  - apply colorize_caption_beyond_table. exact Hhigh.
Qed.

(** X1.  [colorize_transcription] returns exactly when every speaker id
    lies between -20 and 19: ids from -20 to -2 index the table from its
    end and get the palette entry at the id modulo 10.  As soon as one id
    is below -20 or above 19 the result is [IndexError]. *)
Theorem colorize_transcription_table_range (transcription : list Caption) :
  (Forall (fun c => -20 <= fst c < 20) transcription ->
   colorize_transcription transcription
   = ok (colorize_modulo transcription)) /\
  (Exists (fun c => fst c < -20 \/ 20 <= fst c) transcription ->
   colorize_transcription transcription = raise IndexError).
Proof.
  split.
  - intros Hall. unfold colorize_transcription, colorize_modulo.
    rewrite (for_each_total colorize_caption colorize_caption_modulo).
    + reflexivity.
    + eapply Forall_impl; [| exact Hall].
      intros c Hc. apply colorize_caption_in_table. exact Hc.
  - intros Hex. unfold colorize_transcription.
    assert (Hloop : for_each colorize_caption transcription
                    = raise IndexError).
    { induction Hex as [c cs Hc | c cs _ IH]; cbn [for_each].
      - rewrite colorize_caption_off_table by exact Hc. reflexivity.
      - destruct (Z_lt_le_dec (fst c) (-20)) as [Hlow | Hge].
        + rewrite colorize_caption_off_table by (left; exact Hlow).
          reflexivity.
        + destruct (Z_lt_le_dec (fst c) 20) as [Hlt | Hhigh].
          * rewrite colorize_caption_in_table by lia.
            rewrite bind_ret, IH. reflexivity.
          * rewrite colorize_caption_off_table by (right; exact Hhigh).
            reflexivity. }
    rewrite Hloop. reflexivity.
Qed.

Lemma colorize_transcription_table_range_witness :
  colorize_transcription [(-2, "a"); (19, "b")]
  = ok (colorize_modulo [(-2, "a"); (19, "b")]) /\
  colorize_transcription [(3, "a"); (-21, "b"); (4, "c")]
  = raise IndexError.
Proof.
  split.
  - apply (proj1 (colorize_transcription_table_range
                    [(-2, "a"); (19, "b")])).
    repeat constructor; cbn; lia.
  - apply (proj2 (colorize_transcription_table_range
                    [(3, "a"); (-21, "b"); (4, "c")])).
    apply Exists_cons_tl. apply Exists_cons_hd. cbn. lia.
Defined.

(** ** One line per caption *)

Lemma prefix_newline (c : ascii) (s : string) :
  String.prefix newline (String c s) = Ascii.eqb c nl.
Proof.
  unfold newline. fold nl. cbn [String.prefix].
  destruct (ascii_dec nl c) as [<- | Hc].
  - rewrite Ascii.eqb_refl. destruct s; reflexivity.
  - symmetry. apply Ascii.eqb_neq. intros ->. apply Hc. reflexivity.
Qed.

Lemma split_scan_line (l rest : string) :
  has_char nl l = false ->
  Py.split_scan newline 0 (l ++ String nl rest)
  = l :: Py.split_scan newline 0 rest.
Proof.
  induction l as [| c l IH]; intros Hl.
  - cbn [String.append Py.split_scan].
    rewrite prefix_newline, Ascii.eqb_refl. reflexivity.
  - cbn [has_char] in Hl. apply orb_false_iff in Hl as (Hc & Hl).
    cbn [String.append Py.split_scan].
    rewrite prefix_newline, Hc, (IH Hl). reflexivity.
Qed.

Lemma split_scan_no_newline (l : string) :
  has_char nl l = false -> Py.split_scan newline 0 l = [l].
Proof.
  induction l as [| c l IH]; intros Hl.
  - reflexivity.
  - cbn [has_char] in Hl. apply orb_false_iff in Hl as (Hc & Hl).
    cbn [Py.split_scan].
    rewrite prefix_newline, Hc, (IH Hl). reflexivity.
Qed.

Lemma split_join_lines (l : string) (ls : list string) :
  Forall (fun x => has_char nl x = false) (l :: ls) ->
  Py.split_scan newline 0 (Py.join newline (l :: ls)) = l :: ls.
Proof.
  revert l. induction ls as [| l' ls IH]; intros l Hall.
  - apply split_scan_no_newline. inversion Hall; assumption.
  - inversion Hall as [| ? ? Hl Hrest]; subst.
    change (Py.join newline (l :: l' :: ls))
      with (l ++ String nl (Py.join newline (l' :: ls)))%string.
    rewrite (split_scan_line _ _ Hl), (IH l' Hrest). reflexivity.
Qed.

Lemma has_char_append (c : ascii) (s t : string) :
  has_char c (s ++ t) = has_char c s || has_char c t.
Proof.
  induction s as [| x s IH]; cbn [String.append has_char].
  - reflexivity.
  - rewrite IH, orb_assoc. reflexivity.
Qed.

Lemma palette_no_newline (k : nat) :
  has_char nl (nth k palette EmptyString) = false.
Proof. do 10 (destruct k as [| k]; [reflexivity |]). destruct k; reflexivity. Qed.

Lemma colorize_caption_modulo_no_newline (c : Caption) :
  has_char nl (snd c) = false ->
  has_char nl (colorize_caption_modulo c) = false.
Proof.
  destruct c as [speaker text]. cbn [snd]. intros Ht.
  unfold colorize_caption_modulo.
  destruct (speaker =? -1); [exact Ht |].
  rewrite !has_char_append, palette_no_newline, Ht. reflexivity.
Qed.

(** X2.  For a non-empty list of captions with speaker ids between -20 and
    19 and no newline in a text, the text [colorize_transcription] returns
    has one line per caption: splitting it at the newlines gives back the
    coloured captions, in order. *)
Theorem colorize_transcription_lines (transcription : list Caption) :
  transcription <> [] ->
  Forall (fun c => -20 <= fst c < 20 /\ has_char nl (snd c) = false)
         transcription ->
  exists colored,
    colorize_transcription transcription = ok colored /\
    Py.split colored newline
    = ok (map colorize_caption_modulo transcription) /\
    List.length (map colorize_caption_modulo transcription)
    = List.length transcription.
Proof.
  intros Hne Hall.
  exists (colorize_modulo transcription). split; [| split].
  - unfold colorize_transcription, colorize_modulo.
    rewrite (for_each_total colorize_caption colorize_caption_modulo);
      [reflexivity |].
    eapply Forall_impl; [| exact Hall].
    intros c (Hc & _). apply colorize_caption_in_table. exact Hc.
  - destruct transcription as [| c cs]; [contradiction |].
    unfold Py.split, colorize_modulo. cbn [newline map].
    change (String (ascii_of_nat 10) EmptyString) with newline.
    rewrite split_join_lines; [reflexivity |].
    change (Forall (fun x => has_char nl x = false)
              (map colorize_caption_modulo (c :: cs))).
    apply Forall_map. eapply Forall_impl; [| exact Hall].
    intros c' (_ & Hc'). apply colorize_caption_modulo_no_newline.
    exact Hc'.
  - apply length_map.
Qed.

Lemma colorize_transcription_lines_witness :
  exists colored,
    colorize_transcription [(0, "hello"); (-1, "uh"); (13, "bye")]
    = ok colored /\
    Py.split colored newline = ok ["[bright_red]hello"; "uh"; "[orange3]bye"].
Proof.
  destruct (colorize_transcription_lines
              [(0, "hello"); (-1, "uh"); (13, "bye")])
    as (colored & Hcol & Hsplit & _).
  - discriminate.
  - repeat constructor; cbn; lia.
  - exists colored. split; [exact Hcol | exact Hsplit].
Defined.

(** ** Labels that are not speaker labels *)

Lemma split_scan_absent (s : string) :
  mentions_speaker s = false -> Py.split_scan "speaker" 0 s = [s].
Proof.
  unfold mentions_speaker.
  induction s as [| c s IH]; intros Habs.
  - reflexivity.
  - cbn [String.index] in Habs. cbn [Py.split_scan].
    destruct (String.prefix "speaker" (String c s)); [discriminate Habs |].
    destruct (String.index 0 "speaker" s); [discriminate Habs |].
    rewrite (IH eq_refl). reflexivity.
Qed.

Lemma int_ok_or_value_error (s : string) :
  (exists n, Py.int s = ok n) \/ Py.int s = raise ValueError.
Proof.
  unfold Py.int.
  destruct (Py.strip s) as [| c t].
  - right. reflexivity.
  - destruct c as [[|] [|] [|] [|] [|] [|] [|] [|]];
      match goal with
      | |- context [Py.int_unsigned ?u] =>
          destruct (Py.int_unsigned u) as [n |];
          [left; eexists; reflexivity | right; reflexivity]
      end.
Qed.

Section LabelFacts.

Context {Annotation Frame Audio Model Device : Type}.
Context {PA : Pyannote Annotation}.
Context {W : Whisper Frame Audio Model Device}.

Lemma assign_speaker_lone (dia : Annotation) (t label : string) :
  labels dia = [label] ->
  assign_speaker dia t =
  (parts <- Py.split label "speaker" ;;
   digits <- Py.getitem parts 1 ;;
   spk_id <- Py.int digits ;;
   ok (spk_id, t)).
Proof.
  intros H. unfold assign_speaker. rewrite H.
  cbn [List.length Nat.eqb]. rewrite getitem_first, bind_ret. reflexivity.
Qed.

(** X3.  When the diarization cropped to a segment's interval has a single
    label and "speaker" does not occur in it, the loop body raises
    [IndexError], and so does [identify_speakers] on a transcription that
    has this segment first. *)
Theorem identify_speakers_foreign_label
    (d : Annotation) (ts : Q) (seg : TSegment) (iv : Segment)
    (label : string) :
  segment_interval ts seg = Some iv ->
  labels (crop d iv) = [label] ->
  mentions_speaker label = false ->
  segment_caption d ts seg = raise IndexError /\
  (forall full rest,
     identify_speakers {| text := full; segments := seg :: rest |} d ts
     = raise IndexError) /\
  (forall tr, In seg (segments tr) ->
     exists e, identify_speakers tr d ts = raise e).
Proof.
  intros Hiv Hone Habs.
  assert (Hseg : segment_caption d ts seg = raise IndexError).
  { rewrite segment_caption_interval, Hiv.
    rewrite (assign_speaker_lone _ _ label Hone).
    unfold Py.split. rewrite split_scan_absent by exact Habs.
    reflexivity. }
  split; [exact Hseg | split].
  - intros full rest. unfold identify_speakers. cbn [segments for_each].
    rewrite Hseg. reflexivity.
  - intros tr Hin. unfold identify_speakers. apply for_each_raises.
    apply Exists_exists. exists seg. split; [exact Hin |].
    exists IndexError. exact Hseg.
Qed.

(** X4.  When the single label of a cropped diarization is "speaker"
    followed by a string in which "speaker" does not occur, of no more
    characters than [int] reads digits, the speaker id is what [int]
    makes of that string: the caption carries that integer (a sign,
    blanks around the literal and underscores between digits are
    accepted), or the loop body raises [ValueError]. *)
Theorem identify_speakers_label_suffix
    (d : Annotation) (ts : Q) (seg : TSegment) (iv : Segment)
    (suffix : string) :
  segment_interval ts seg = Some iv ->
  labels (crop d iv) = [("speaker" ++ suffix)%string] ->
  mentions_speaker suffix = false ->
  (String.length suffix <= Py.int_max_str_digits)%nat ->
  (exists n, Py.int suffix = ok n /\
             segment_caption d ts seg = ok (n, seg_text seg)) \/
  (Py.int suffix = raise ValueError /\
   segment_caption d ts seg = raise ValueError).
Proof.
  intros Hiv Hone Habs _.
  assert (Hseg : segment_caption d ts seg =
                 (spk_id <- Py.int suffix ;; ok (spk_id, seg_text seg))).
  { rewrite segment_caption_interval, Hiv.
    rewrite (assign_speaker_lone _ _ _ Hone).
    unfold Py.split. rewrite split_scan_speaker, split_scan_absent
      by exact Habs.
    rewrite bind_ret.
    change (Py.getitem [EmptyString; suffix] 1) with (ok suffix).
    rewrite bind_ret. reflexivity. }
  destruct (int_ok_or_value_error suffix) as [(n & Hn) | He].
  - left. exists n. split; [exact Hn |]. rewrite Hseg, Hn. reflexivity.
  - right. split; [exact He |]. rewrite Hseg, He. reflexivity.
Qed.

End LabelFacts.

(** ** Several speakers in a segment *)

Section SpeakerFacts.

Context {Annotation Frame Audio Model Device : Type}.
Context {PA : Pyannote Annotation}.
Context {W : Whisper Frame Audio Model Device}.

(** X5.  When the diarization cropped to a segment's interval has two
    labels or more, the caption carries a position in the list of labels:
    the first position whose label has the greatest duration.  The id is
    thus below the number of labels, whatever the labels are. *)
Theorem identify_speakers_many_position
    (d : Annotation) (ts : Q) (seg : TSegment) (iv : Segment) :
  segment_interval ts seg = Some iv ->
  (2 <= List.length (labels (crop d iv)))%nat ->
  exists k,
    segment_caption d ts seg = ok (Z.of_nat k, seg_text seg) /\
    (k < List.length (labels (crop d iv)))%nat /\
    first_max (map (label_duration (crop d iv)) (labels (crop d iv))) k.
Proof.
  intros Hiv Hmany.
  destruct (assign_speaker_many_position (crop d iv) (seg_text seg) Hmany)
    as (k & Hk & Hmax).
  exists k. split; [| split].
  - rewrite segment_caption_interval, Hiv. exact Hk.
  - destruct Hmax as (Hlt & _). rewrite length_map in Hlt. exact Hlt.
  - exact Hmax.
Qed.

Lemma nth_first_speakers (n k : nat) :
  (k < n)%nat ->
  nth k (first_speakers n) EmptyString = speaker_label (N.of_nat k).
Proof.
  intros Hk. unfold first_speakers.
  rewrite (nth_indep _ EmptyString (speaker_label (N.of_nat 0)))
    by (rewrite length_map, length_seq; exact Hk).
  rewrite (map_nth (fun i => speaker_label (N.of_nat i)) (seq 0 n) 0%nat k).
  rewrite seq_nth by exact Hk. reflexivity.
Qed.

(** X6.  When the labels of the cropped diarization are "speaker0",
    "speaker1", ..., in this order, and there are at least two, the
    position the caption carries is the number in the label of the first
    speaker with the greatest duration. *)
Theorem identify_speakers_many_numbered
    (d : Annotation) (ts : Q) (seg : TSegment) (iv : Segment) (n : nat) :
  segment_interval ts seg = Some iv ->
  labels (crop d iv) = first_speakers n ->
  (2 <= n)%nat ->
  exists k,
    (k < n)%nat /\
    segment_caption d ts seg = ok (Z.of_N (N.of_nat k), seg_text seg) /\
    nth k (labels (crop d iv)) EmptyString = speaker_label (N.of_nat k) /\
    first_max (map (label_duration (crop d iv)) (labels (crop d iv))) k.
Proof.
  intros Hiv Hlabels Hn.
  assert (Hlen : List.length (labels (crop d iv)) = n)
    by (rewrite Hlabels; unfold first_speakers;
        rewrite length_map, length_seq; reflexivity).
  destruct (assign_speaker_many_position (crop d iv) (seg_text seg))
    as (k & Hcap & Hmax); [lia |].
  assert (Hk : (k < n)%nat).
  { destruct Hmax as (Hlt & _). rewrite length_map in Hlt. lia. }
  exists k. rewrite nat_N_Z. split; [exact Hk | split; [| split]].
  - rewrite segment_caption_interval, Hiv. exact Hcap.
  - rewrite Hlabels. apply nth_first_speakers. exact Hk.
  - exact Hmax.
Qed.

(** X7.  Captions made from a diarization with at most twenty labels per
    segment, a lone label being "speaker" followed by a number below 20,
    can always be coloured: [colorize_transcription] returns on whatever
    [identify_speakers] returns. *)
Theorem identified_captions_colorize
    (tr : Transcription) (d : Annotation) (ts : Q) (caps : list Caption) :
  (forall seg iv,
     In seg (segments tr) -> segment_interval ts seg = Some iv ->
     (List.length (labels (crop d iv)) <= 20)%nat /\
     (forall l, labels (crop d iv) = [l] ->
                exists n, l = speaker_label n /\ (n < 20)%N)) ->
  identify_speakers tr d ts = ok caps ->
  Forall (fun c => -1 <= fst c < 20) caps /\
  colorize_transcription caps = ok (colorize_modulo caps).
Proof.
  intros Hdia Hrun.
  assert (Hids : Forall (fun c => -1 <= fst c < 20) caps).
  { unfold identify_speakers in Hrun. apply for_each_Forall2 in Hrun.
    set (segs0 := segments tr) in *. clearbody segs0. revert Hdia.
    induction Hrun as [| seg cap segs caps Hcap _ IH]; intros Hdia;
      constructor.
    - rewrite segment_caption_interval in Hcap.
      destruct (segment_interval ts seg) as [iv |] eqn:Hiv;
        [| discriminate Hcap].
      destruct (Hdia seg iv (or_introl eq_refl) Hiv) as (Hlen & Hlone).
      destruct (labels (crop d iv)) as [| l1 [| l2 ls]] eqn:E.
      + rewrite (assign_speaker_none _ _ E) in Hcap.
        injection Hcap as <-. cbn. lia.
      + destruct (Hlone l1 eq_refl) as (n & -> & Hn).
        rewrite (assign_speaker_one _ _ n E) in Hcap.
        injection Hcap as <-. cbn [fst]. lia.
      + destruct (assign_speaker_many_position (crop d iv) (seg_text seg))
          as (k & Hk & (Hlt & _)); [rewrite E; cbn; lia |].
        rewrite Hk in Hcap. injection Hcap as <-.
        rewrite length_map, E in Hlt. cbn [fst]. lia.
    - apply IH. intros seg' iv' Hin. apply Hdia. right. exact Hin. }
  split; [exact Hids |].
  unfold colorize_transcription, colorize_modulo.
  rewrite (for_each_total colorize_caption colorize_caption_modulo);
    [reflexivity |].
  eapply Forall_impl; [| exact Hids].
  intros c Hc. cbv beta in Hc. apply colorize_caption_in_table. lia.
Qed.

End SpeakerFacts.

Lemma identify_speakers_foreign_label_witness :
  segment_caption MoreExamples.anonymous 0 Example.hello = raise IndexError
  /\ identify_speakers Example.heard MoreExamples.anonymous 0
     = raise IndexError.
Proof.
  destruct (identify_speakers_foreign_label
              MoreExamples.anonymous 0 Example.hello
              (mk_segment (0 + (1 # 2)) (0 + (5 # 2))) "A"
              ltac:(reflexivity) ltac:(reflexivity) ltac:(reflexivity))
    as (Hbody & Hfirst & _).
  split; [exact Hbody | exact (Hfirst " hello there" [])].
Defined.

Lemma identify_speakers_label_suffix_witness :
  segment_caption MoreExamples.signed 0 Example.hello
  = ok (-3, " hello there").
Proof.
  destruct (identify_speakers_label_suffix
              MoreExamples.signed 0 Example.hello
              (mk_segment (0 + (1 # 2)) (0 + (5 # 2))) "-3"
              ltac:(reflexivity) ltac:(reflexivity) ltac:(reflexivity)
              ltac:(vm_compute; lia))
    as [(n & Hn & Hcap) | (He & _)].
  - injection Hn as <-. exact Hcap.
  - discriminate He.
Defined.

Lemma identify_speakers_many_position_witness :
  exists k,
    segment_caption Example.meeting 0 Example.hello
    = ok (Z.of_nat k, " hello there") /\
    (k < 2)%nat.
Proof.
  destruct (identify_speakers_many_position
              Example.meeting 0 Example.hello
              (mk_segment (0 + (1 # 2)) (0 + (5 # 2)))
              ltac:(reflexivity) ltac:(vm_compute; lia))
    as (k & Hcap & Hk & _).
  exists k. split; [exact Hcap | exact Hk].
Defined.

Lemma identify_speakers_many_numbered_witness :
  exists k,
    segment_caption MoreExamples.duet 0 Example.hello
    = ok (Z.of_N (N.of_nat k), " hello there") /\
    nth k ["speaker0"; "speaker1"] EmptyString = speaker_label (N.of_nat k).
Proof.
  destruct (identify_speakers_many_numbered
              MoreExamples.duet 0 Example.hello
              (mk_segment (0 + (1 # 2)) (0 + (5 # 2))) 2
              ltac:(reflexivity) ltac:(reflexivity) ltac:(lia))
    as (k & _ & Hcap & Hlabel & _).
  exists k. split; [exact Hcap | exact Hlabel].
Defined.

Lemma identified_captions_colorize_witness :
  colorize_transcription [(2, " hello there")]
  = ok (colorize_modulo [(2, " hello there")]).
Proof.
  apply (identified_captions_colorize
           Example.heard Example.meeting 3 [(2, " hello there")]).
  - intros seg iv [<- | []] Hiv. injection Hiv as <-.
    split; [vm_compute; lia |].
    intros l Hl. injection Hl as <-.
    exists 2%N. split; [reflexivity | reflexivity].
  - reflexivity.
Defined.

(** ** Merged batches *)

Section ChainFacts.

Context {Annotation Frame Audio Model Device : Type}.
Context {PA : Pyannote Annotation}.
Context {W : Whisper Frame Audio Model Device}.

Lemma sliding_window_eta (w : SlidingWindow) :
  {| duration := duration w; step := step w; start := start w |} = w.
Proof. destruct w; reflexivity. Qed.

(** X8.  The waveform [concat] returns carries the sliding window of the
    first chunk, whatever the windows of the other chunks are; a call of
    the transcriber on the merged pair therefore shifts the word times by
    the start of the first chunk.  For a single chunk the waveform comes
    back unchanged. *)
Theorem concat_keeps_first_window
    (c : Chunk Annotation Frame) (cs : list (Chunk Annotation Frame))
    (collar : Q) (annotation : Annotation) (waveform : Waveform Frame)
    (self : WhisperTranscriber Model) :
  concat (c :: cs) collar = ok (annotation, waveform) ->
  sliding_window waveform = sliding_window (snd c) /\
  fst (__call__ self annotation waveform)
  = identify_speakers (transcribe self waveform) annotation
      (start (sliding_window (snd c))) /\
  (cs = [] -> waveform = snd c).
Proof.
  rewrite concat_cons. intros H. injection H as <- <-.
  split; [| split].
  - cbn [sliding_window]. apply sliding_window_eta.
  - unfold __call__. cbn [fst sliding_window start]. reflexivity.
  - intros ->. cbn [map List.concat]. rewrite app_nil_r.
    destruct c as [ann [samples [dur stp st]]]. reflexivity.
Qed.

(** X9.  Merging is compatible with splitting a batch in two: the samples
    of the merge of [xs ++ ys] are those of the merge of [xs] followed by
    those of the merge of [ys], and its window is that of the merge of
    [xs]. *)
Theorem concat_split_batch
    (xs ys : list (Chunk Annotation Frame)) (collar : Q) :
  xs <> [] -> ys <> [] ->
  exists a w a1 w1 a2 w2,
    concat (xs ++ ys) collar = ok (a, w) /\
    concat xs collar = ok (a1, w1) /\
    concat ys collar = ok (a2, w2) /\
    data w = data w1 ++ data w2 /\
    sliding_window w = sliding_window w1.
Proof.
  destruct xs as [| x xs]; [contradiction |].
  destruct ys as [| y ys]; [contradiction |].
  intros _ _.
  change ((x :: xs) ++ y :: ys) with (x :: (xs ++ y :: ys)).
  rewrite !concat_cons.
  do 6 eexists. split; [reflexivity |].
  split; [reflexivity |]. split; [reflexivity |].
  cbn [data sliding_window]. split; [| reflexivity].
  change (x :: xs ++ y :: ys) with ((x :: xs) ++ y :: ys).
  rewrite map_app, concat_app. reflexivity.
Qed.

(** X10.  What the chain does with a batch: when the diarizer returns no
    pair, [IndexError]; when the merged annotation has no speech, the batch
    is dropped and nothing is raised; when it has speech, [TypeError]. *)
Theorem on_batch_outcome
    (diarizer : list (Waveform Frame) -> list (Chunk Annotation Frame))
    (batch : list (Waveform Frame)) :
  (diarizer batch = [] -> on_batch diarizer batch = raise IndexError) /\
  (forall merged,
     concat (diarizer batch) default_collar = ok merged ->
     (timeline_duration (fst merged) <= 0)%Q ->
     on_batch diarizer batch = ok None) /\
  (forall merged,
     concat (diarizer batch) default_collar = ok merged ->
     (0 < timeline_duration (fst merged))%Q ->
     on_batch diarizer batch = raise TypeError).
Proof.
  unfold on_batch. split; [| split].
  - intros ->. unfold concat. rewrite getitem_nil. reflexivity.
  - intros merged -> Hsilent. rewrite bind_ret. unfold has_speech.
    apply Qle_bool_iff in Hsilent. rewrite Hsilent. reflexivity.
  - intros merged -> Hspeech. rewrite bind_ret. unfold has_speech.
    destruct (Qle_bool (timeline_duration (fst merged)) 0) eqn:E.
    + apply Qle_bool_iff in E. exfalso.
      exact (Qlt_not_le _ _ Hspeech E).
    + reflexivity.
Qed.

Lemma on_batch_never_prints
    (diarizer : list (Waveform Frame) -> list (Chunk Annotation Frame))
    (batch : list (Waveform Frame)) :
  on_batch diarizer batch = ok None \/
  exists e, on_batch diarizer batch = raise e.
Proof.
  unfold on_batch.
  destruct (concat (diarizer batch) default_collar) as [e | c].
  - right. exists e. reflexivity.
  - rewrite bind_ret. destruct (has_speech c).
    + right. exists TypeError. reflexivity.
    + left. reflexivity.
Qed.

Lemma subscribe_prints_nothing
    (diarizer : list (Waveform Frame) -> list (Chunk Annotation Frame))
    (batches : list (list (Waveform Frame))) :
  fst (subscribe diarizer batches) = [] /\
  (snd (subscribe diarizer batches) = None <->
   Forall (fun b => on_batch diarizer b = ok None) batches).
Proof.
  induction batches as [| b bs (IHp & IHe)]; cbn [subscribe].
  - split; [reflexivity |]. split; [constructor | reflexivity].
  - destruct (on_batch_never_prints diarizer b) as [Hb | (e & Hb)];
      rewrite Hb.
    + split; [exact IHp |]. rewrite IHe. split.
      * intros H. constructor; [exact Hb | exact H].
      * intros H. inversion H; assumption.
    + cbn [fst snd]. split; [reflexivity |]. split.
      * discriminate.
      * intros H. inversion H as [| ? ? Hb' _]; subst.
        rewrite Hb in Hb'. discriminate Hb'.
Qed.

(** X11.  Whatever the stream and the diarizer, the chain hands no text to
    [rich.print]: it runs to completion exactly when every batch is
    dropped for lack of speech, and is otherwise ended by an exception. *)
Theorem run_chain_prints_nothing
    (diarizer : list (Waveform Frame) -> list (Chunk Annotation Frame))
    (windows : list (Waveform Frame)) :
  exists batches err,
    buffer_with_count batch_size windows = ok batches /\
    run_chain diarizer windows = ok ([], err) /\
    (err = None <->
     Forall (fun b => on_batch diarizer b = ok None) batches).
Proof.
  unfold run_chain, buffer_with_count. rewrite batch_size_value.
  change (4 <=? 0) with false. cbv iota. rewrite bind_ret.
  set (batches := buffer_scan (Z.to_nat 4) [] windows).
  exists batches, (snd (subscribe diarizer batches)).
  destruct (subscribe_prints_nothing diarizer batches) as (Hp & He).
  split; [reflexivity | split; [| exact He]].
  destruct (subscribe diarizer batches) as [printed err].
  cbn [fst snd] in *. rewrite Hp. reflexivity.
Qed.

End ChainFacts.

Lemma concat_keeps_first_window_witness :
  sliding_window MoreExamples.merged_waveform
  = sliding_window (mk_waveform [1 # 10; 2 # 10]%Q 0) /\
  fst (__call__ Example.fresh MoreExamples.merged_annotation
         MoreExamples.merged_waveform)
  = identify_speakers
      (transcribe Example.fresh MoreExamples.merged_waveform)
      MoreExamples.merged_annotation 0.
Proof.
  destruct (concat_keeps_first_window (PA := pyannote) (W := whisper)
              (Example.meeting, mk_waveform [1 # 10; 2 # 10]%Q 0)
              [(Example.meeting, mk_waveform [3 # 10]%Q 2)]
              default_collar
              MoreExamples.merged_annotation MoreExamples.merged_waveform
              Example.fresh ltac:(reflexivity))
    as (Hwindow & Hcall & _).
  split; [exact Hwindow | exact Hcall].
Defined.

Lemma concat_split_batch_witness :
  exists a w a1 w1 a2 w2,
    concat (Example.two_chunks ++ Example.two_chunks) default_collar
    = ok (a, w) /\
    concat Example.two_chunks default_collar = ok (a1, w1) /\
    concat Example.two_chunks default_collar = ok (a2, w2) /\
    data w = data w1 ++ data w2 /\
    sliding_window w = sliding_window w1.
Proof.
  apply (concat_split_batch (PA := pyannote)
           Example.two_chunks Example.two_chunks default_collar);
    discriminate.
Defined.

Lemma on_batch_outcome_witness :
  on_batch (W := whisper) MoreExamples.nobody [] = raise IndexError /\
  on_batch (W := whisper) MoreExamples.nobody Example.five_windows = ok None /\
  on_batch (W := whisper) Example.same_meeting Example.five_windows
  = raise TypeError.
Proof.
  split; [| split].
  - apply (proj1 (on_batch_outcome (PA := pyannote) (W := whisper)
                    MoreExamples.nobody [])).
    reflexivity.
  - eapply (proj1 (proj2 (on_batch_outcome (PA := pyannote) (W := whisper)
                            MoreExamples.nobody Example.five_windows))).
    + reflexivity.
    + vm_compute. discriminate.
  - eapply (proj2 (proj2 (on_batch_outcome (PA := pyannote) (W := whisper)
                            Example.same_meeting Example.five_windows))).
    + reflexivity.
    + vm_compute. reflexivity.
Defined.

(** ** Silenced blocks *)

Lemma printing_to_devnull (lines : list string) (s : Interpreter) :
  sys_stdout s = Devnull ->
  fold_left (fun s line => print line s) lines s = s.
Proof.
  intros Hs. induction lines as [| line lines IH]; cbn [fold_left].
  - reflexivity.
  - unfold print at 2. rewrite Hs. exact IH.
Qed.

Lemma printing_to_terminal (lines : list string) (s : Interpreter) :
  sys_stdout s = Terminal ->
  fold_left (fun s line => print line s) lines s
  = {| sys_stdout := Terminal;
       terminal := terminal s ++ lines;
       devnull_handles := devnull_handles s |}.
Proof.
  revert s. induction lines as [| line lines IH]; intros s Hs;
    cbn [fold_left].
  - rewrite app_nil_r. destruct s. cbn in Hs. subst. reflexivity.
  - rewrite IH.
    + unfold print. rewrite Hs. cbn [terminal devnull_handles].
      rewrite <- app_assoc. reflexivity.
    + unfold print. rewrite Hs. reflexivity.
Qed.

(** X12.  A block run under [suppress_stdout] sees [sys.stdout] pointing to
    the null device; when the block ends, by returning or by raising,
    [sys.stdout] is what it was before and the result or the exception is
    that of the block.  Lines the block prints never reach the terminal:
    after a block that only prints, the interpreter is as it was before,
    whereas the same block run bare appends its lines to the terminal. *)
Theorem suppress_stdout_restores {A : Type}
    (body : Interpreter -> result A * Interpreter)
    (lines : list string) (r : result A) (s : Interpreter) :
  fst (suppress_stdout body s)
  = fst (body (set_stdout Devnull (open_devnull s))) /\
  sys_stdout (snd (suppress_stdout body s)) = sys_stdout s /\
  suppress_stdout (printing lines r) s = (r, s) /\
  (sys_stdout s = Terminal ->
   terminal (snd (printing lines r s)) = terminal s ++ lines).
Proof.
  split; [| split; [| split]].
  - unfold suppress_stdout.
    destruct (body (set_stdout Devnull (open_devnull s))). reflexivity.
  - unfold suppress_stdout.
    destruct (body (set_stdout Devnull (open_devnull s))). reflexivity.
  - unfold suppress_stdout, printing.
    rewrite printing_to_devnull by reflexivity.
    destruct s. reflexivity.
  - intros Hs. unfold printing. cbn [snd].
    rewrite printing_to_terminal by exact Hs. reflexivity.
Qed.

Lemma suppress_stdout_restores_witness :
  suppress_stdout (printing ["[00:00.000 --> 00:01.500]  hello"]
                     (@raise nat ValueError))
    MoreExamples.interpreter
  = (raise ValueError, MoreExamples.interpreter) /\
  terminal (snd (printing ["[00:00.000 --> 00:01.500]  hello"]
                   (@raise nat ValueError) MoreExamples.interpreter))
  = ["listening..."; "[00:00.000 --> 00:01.500]  hello"].
Proof.
  destruct (suppress_stdout_restores
              (printing ["[00:00.000 --> 00:01.500]  hello"]
                 (@raise nat ValueError))
              ["[00:00.000 --> 00:01.500]  hello"]
              (@raise nat ValueError) MoreExamples.interpreter)
    as (_ & _ & Hquiet & Hbare).
  split; [exact Hquiet | exact (Hbare eq_refl)].
Defined.
